(** * Order lifecycle and rider assignment of the delivery API

    A shallow embedding of the route handlers that make up the order
    lifecycle core:

    - [create]          POST  /            (routes/orderRoute.js)
    - [transition]      PATCH /:orderId/status (routes/orderRoute.js)
    - [assign]          POST  /orders/:orderId/assign (admin routes)
    - [updateLocation]  POST  /location    (rider routes)
    - [fail]            POST  /orders/:orderId/fail (rider routes)

    The three Mongoose collections are finite maps keyed by [_id] (orders,
    users) or by the rider reference (rider locations).  A handler is a
    state transformer over the [World] that may answer early, the way the
    source does with [return res.status(...).json(...)]. *)

From Stdlib Require Import ZArith QArith.
From stdpp Require Import base option list sorting gmap strings fin_maps.

Local Open Scope string_scope.

(** ** Values *)

(** Mongo [ObjectId]s. *)
Definition ObjectId := N.

(** Socket identifiers of the real-time transport. *)
Definition SocketId := N.

(** The JSON values a request body field can hold, as the body parser hands
    them over.  A number is the value of the double it was parsed to, a
    rational (a literal too small for a double has become 0); the only thing
    the handlers ask of a number is whether it is zero. *)
Inductive jsval :=
| JUndefined
| JNull
| JBool (b : bool)
| JNum (q : Q)
| JStr (s : string).

(** JavaScript truthiness, as used by [&&] and [?:]. *)
Definition truthy (v : jsval) : bool :=
  match v with
  | JUndefined | JNull => false
  | JBool b => b
  | JNum q => negb (Qnum q =? 0)%Z
  | JStr s => negb (String.eqb s "")
  end.

(** [{ latitude, longitude }] *)
Record Coordinates := { latitude : jsval; longitude : jsval }.

(** ** Models *)

Module User.
Record t := { role : string; isActive : bool }.

(** [User.findOne({ _id: riderId, role: 'rider', isActive: true })] *)
Definition findOne_active_rider (riderId : ObjectId) (coll : gmap ObjectId t)
  : option t :=
  match coll !! riderId with
  | Some u => if String.eqb (role u) "rider" && isActive u then Some u else None
  | None => None
  end.
End User.

Module Order.
(** One element of [order.timeline]. *)
Record entry := {
  e_status : string;
  timestamp : Z;
  notes : option string;
  location : option Coordinates
}.

(** The fields a business submits with a new order. *)
Record details := {
  pickupAddress : string;
  pickupCoordinates : Coordinates;
  dropoffAddress : string;
  dropoffCoordinates : Coordinates;
  deliveryDate : string;
  deliveryTime : string;
  customerName : string;
  customerPhone : string;
  productDescription : string;
  productWeight : jsval;
  productImages : list string
}.

Record t := {
  business : ObjectId;
  rider : option ObjectId;
  status : string;
  timeline : list entry;
  failureReason : option string;
  actualDeliveryTime : option Z;
  info : details
}.

(** [status: { $in: ['assigned', 'picked_up', 'in_transit'] }] *)
Definition active (s : string) : bool :=
  bool_decide (s ∈ ["assigned"; "picked_up"; "in_transit"]).

(** The filter [{ rider: riderId, status: { $in: [...] } }]. *)
Definition active_of (riderId : ObjectId) (o : t) : Prop :=
  rider o = Some riderId ∧ active (status o) = true.

Global Instance active_of_dec riderId o : Decision (active_of riderId o).
Proof. unfold active_of. apply _. Defined.

(** [Order.findById(orderId)] *)
Definition findById (orderId : ObjectId) (coll : gmap ObjectId t) : option t :=
  coll !! orderId.

(** [Order.findOne({ _id: orderId, rider: userId })] *)
Definition findOne_owned (orderId userId : ObjectId) (coll : gmap ObjectId t)
  : option t :=
  match coll !! orderId with
  | Some o => if decide (rider o = Some userId) then Some o else None
  | None => None
  end.

(** [Order.findOne({ rider: riderId, status: { $in: [...] } })].  Which of
    several matching documents comes back is left to the collection's
    enumeration; the callers only test the result for null. *)
Definition findOne_active (riderId : ObjectId) (coll : gmap ObjectId t)
  : option (ObjectId * t) :=
  head (map_to_list (filter (λ p, active_of riderId p.2) coll)).

(** [order.status = s; order.timeline.push(e)] *)
Definition push (s : string) (e : entry) (o : t) : t :=
  {| business := business o; rider := rider o; status := s;
     timeline := timeline o ++ [e]; failureReason := failureReason o;
     actualDeliveryTime := actualDeliveryTime o; info := info o |}.

Definition set_rider (r : ObjectId) (o : t) : t :=
  {| business := business o; rider := Some r; status := status o;
     timeline := timeline o; failureReason := failureReason o;
     actualDeliveryTime := actualDeliveryTime o; info := info o |}.

Definition set_failureReason (reason : string) (o : t) : t :=
  {| business := business o; rider := rider o; status := status o;
     timeline := timeline o; failureReason := Some reason;
     actualDeliveryTime := actualDeliveryTime o; info := info o |}.

Definition set_actualDeliveryTime (d : Z) (o : t) : t :=
  {| business := business o; rider := rider o; status := status o;
     timeline := timeline o; failureReason := failureReason o;
     actualDeliveryTime := Some d; info := info o |}.

(** Modelled from the spec: the Order schema (models/Order) is not among
    the sources.  A new document has status [pending], no rider, no failure
    reason and no actual delivery time (spec 3 and 4.2, [create]); saving a
    document stores the status string as it is (spec 4.2: the rider-facing
    operation accepts any target status string). *)
Definition fresh_document (businessId : ObjectId) (d : details) (tl : list entry) : t :=
  {| business := businessId; rider := None; status := "pending";
     timeline := tl; failureReason := None; actualDeliveryTime := None;
     info := d |}.
End Order.

Module RiderLocation.
(** One record per rider: the collection is keyed by the rider reference. *)
Record t := {
  location : Coordinates;
  isOnline : bool;
  currentOrder : option ObjectId
}.

Definition set_currentOrder (c : option ObjectId) (l : t) : t :=
  {| location := location l; isOnline := isOnline l; currentOrder := c |}.

(** The update document [{ location, isOnline }] applied to a record. *)
Definition set_position (c : Coordinates) (online : bool) (l : t) : t :=
  {| location := c; isOnline := online; currentOrder := currentOrder l |}.

(** [findOneAndUpdate({ rider }, update)] without [upsert]: a missing
    record stays missing. *)
Definition findOneAndUpdate (riderId : ObjectId) (f : t → t)
    (coll : gmap ObjectId t) : gmap ObjectId t :=
  match coll !! riderId with
  | Some l => <[riderId := f l]> coll
  | None => coll
  end.

(** [findOneAndUpdate({ rider }, { location, isOnline },
    { new: true, upsert: true })]: the record after the update, and the
    collection holding it.  An inserted record carries the filter and the
    update fields only, so its [currentOrder] is unset. *)
Definition upsert_position (riderId : ObjectId) (c : Coordinates) (online : bool)
    (coll : gmap ObjectId t) : t * gmap ObjectId t :=
  let l := match coll !! riderId with
           | Some l => set_position c online l
           | None => {| location := c; isOnline := online; currentOrder := None |}
           end in
  (l, <[riderId := l]> coll).
End RiderLocation.

(** ** Events and responses *)

(** The payloads sent to the room [order-<id>]: ['status-update'] and
    ['location-update']. *)
Inductive Event :=
| StatusUpdate (orderId : ObjectId) (status : string) (at_time : Z)
    (location : option Coordinates) (reason : option string)
| LocationUpdate (orderId : ObjectId) (location : Coordinates) (at_time : Z).

Inductive Body :=
| NoBody
| OrderBody (orderId : ObjectId) (order : Order.t)
| LocationBody (l : RiderLocation.t).

(** [res.status(code).json({ message, ... })] *)
Record Response := { code : nat; message : string; body : Body }.

(** ** The world the handlers run in *)

Record World := {
  orders : gmap ObjectId Order.t;
  users : gmap ObjectId User.t;
  locations : gmap ObjectId RiderLocation.t;
  (** number of clock readings taken so far *)
  ticks : nat;
  (** every [global.io.to(room).emit(...)] call, oldest first *)
  emitted : list (ObjectId * Event);
  (** subscribers of each order room *)
  rooms : gmap ObjectId (list SocketId);
  (** what reached which subscriber, oldest first *)
  delivered : list (SocketId * Event)
}.

Definition set_orders (f : gmap ObjectId Order.t → gmap ObjectId Order.t) (w : World) : World :=
  {| orders := f (orders w); users := users w; locations := locations w;
     ticks := ticks w; emitted := emitted w; rooms := rooms w;
     delivered := delivered w |}.

Definition set_locations (f : gmap ObjectId RiderLocation.t → gmap ObjectId RiderLocation.t)
    (w : World) : World :=
  {| orders := orders w; users := users w; locations := f (locations w);
     ticks := ticks w; emitted := emitted w; rooms := rooms w;
     delivered := delivered w |}.

Definition set_rooms (r : gmap ObjectId (list SocketId)) (w : World) : World :=
  {| orders := orders w; users := users w; locations := locations w;
     ticks := ticks w; emitted := emitted w; rooms := r;
     delivered := delivered w |}.

Definition tick (w : World) : World :=
  {| orders := orders w; users := users w; locations := locations w;
     ticks := S (ticks w); emitted := emitted w; rooms := rooms w;
     delivered := delivered w |}.

(** Modelled from the spec: the socket server that owns [global.io] is not
    among the sources.  Spec 4.4: an event is fanned out to the subscribers
    of the order's channel; a channel without subscribers drops it, and the
    caller is never failed by publication. *)
Definition publish (orderId : ObjectId) (ev : Event) (w : World) : World :=
  {| orders := orders w; users := users w; locations := locations w;
     ticks := ticks w; emitted := emitted w ++ [(orderId, ev)];
     rooms := rooms w;
     delivered := delivered w ++
       ((λ s, (s, ev)) <$> default [] (rooms w !! orderId)) |}.

(** ** Handlers as state transformers with early answers *)

Definition Handler (A : Type) : Type := World → (Response + A) * World.

Global Instance Handler_ret : MRet Handler := λ A x w, (inr x, w).

Global Instance Handler_bind : MBind Handler := λ A B k m w,
  match m w with
  | (inl r, w') => (inl r, w')
  | (inr x, w') => k x w'
  end.

(** [return res.status(...).json(...)] *)
Definition respond {A} (r : Response) : Handler A := λ w, (inl r, w).

(** An awaited read of the database. *)
Definition query {A} (f : World → A) : Handler A := λ w, (inr (f w), w).

(** An awaited write. *)
Definition update (f : World → World) : Handler unit := λ w, (inr tt, f w).

(** An awaited operation that writes and hands back what it wrote. *)
Definition db {A} (f : World → A * World) : Handler A := λ w, (inr (f w).1, (f w).2).

(** [if (!x) return res.status(...)...] *)
Definition orElse {A} (r : Response) (x : option A) : Handler A :=
  match x with
  | Some a => mret a
  | None => respond r
  end.

(** The answer a finished handler has sent, and the world it leaves. *)
Definition finish (h : Handler Response) (w : World) : Response * World :=
  match h w with
  | (inl r, w') => (r, w')
  | (inr r, w') => (r, w')
  end.

Section Handlers.

(** The server clock: [clock n] is what the [n]-th [new Date()] of the
    process returns, in milliseconds. *)
Variable clock : nat → Z.

(** [new Date()] *)
Definition new_Date : Handler Z := λ w, (inr (clock (ticks w)), tick w).

(** [global.io.to(`order-${orderId}`).emit(...)] *)
Definition emit (orderId : ObjectId) (ev : Event) : Handler unit :=
  update (publish orderId ev).

(** POST / (create order), from the point where the request validators have
    passed and the images have been uploaded: the creation itself.  A request
    the validators refuse is answered 400 before this point and writes
    nothing.  The submitted fields are kept together as [d].  [new
    Order(...)] draws an [_id] that no stored order has. *)
Definition create (userId : ObjectId) (d : Order.details) : Handler Response :=
  now ← new_Date;
  let order := Order.fresh_document userId d
    [ {| Order.e_status := "pending"; Order.timestamp := now;
         Order.notes := Some "Order created"; Order.location := None |} ] in
  orderId ← query (λ w, fresh (dom (orders w)));
  _ ← update (set_orders (insert orderId order));
  respond {| code := 201; message := "Order created successfully";
             body := OrderBody orderId order |}.

(** PATCH /:orderId/status (update order status, rider) *)
Definition transition (userId orderId : ObjectId) (status : string)
    (notes : option string) (latitude longitude : jsval) : Handler Response :=
  found ← query (λ w, Order.findOne_owned orderId userId (orders w));
  order ← orElse {| code := 404; message := "Order not found"; body := NoBody |} found;
  now ← new_Date;
  let order := Order.push status
    {| Order.e_status := status; Order.timestamp := now; Order.notes := notes;
       Order.location :=
         if truthy latitude && truthy longitude
         then Some {| latitude := latitude; longitude := longitude |}
         else None |} order in
  order ← (if String.eqb status "delivered"
           then (d ← new_Date; mret (Order.set_actualDeliveryTime d order))
           else mret order);
  _ ← update (set_orders (insert orderId order));
  sent ← new_Date;
  _ ← emit orderId (StatusUpdate orderId status sent
         (Some {| latitude := latitude; longitude := longitude |}) None);
  respond {| code := 200; message := "Order status updated successfully";
             body := OrderBody orderId order |}.

(** POST /orders/:orderId/assign (assign order to rider, admin) *)
Definition assign (orderId riderId : ObjectId) : Handler Response :=
  found ← query (λ w, Order.findById orderId (orders w));
  order ← orElse {| code := 404; message := "Order not found"; body := NoBody |} found;
  rider ← query (λ w, User.findOne_active_rider riderId (users w));
  _ ← orElse {| code := 404; message := "Rider not found or inactive";
                body := NoBody |} rider;
  activeOrder ← query (λ w, Order.findOne_active riderId (orders w));
  match activeOrder with
  | Some _ => respond {| code := 400; message := "Rider already has an active order";
                         body := NoBody |}
  | None =>
    now ← new_Date;
    let order := Order.push "assigned"
      {| Order.e_status := "assigned"; Order.timestamp := now;
         Order.notes := Some "Order assigned to rider"; Order.location := None |}
      (Order.set_rider riderId order) in
    _ ← update (set_orders (insert orderId order));
    _ ← update (set_locations (RiderLocation.findOneAndUpdate riderId
           (RiderLocation.set_currentOrder (Some orderId))));
    respond {| code := 200; message := "Order assigned successfully";
               body := OrderBody orderId order |}
  end.

(** POST /location (update rider location) *)
Definition updateLocation (userId : ObjectId) (latitude longitude : jsval)
    (isOnline : option bool) : Handler Response :=
  let coords := {| latitude := latitude; longitude := longitude |} in
  let online := match isOnline with Some b => b | None => true end in
  location ← db (λ w,
    let r := RiderLocation.upsert_position userId coords online (locations w) in
    (r.1, set_locations (λ _, r.2) w));
  _ ← match RiderLocation.currentOrder location with
      | Some current =>
        now ← new_Date;
        emit current (LocationUpdate current coords now)
      | None => mret tt
      end;
  respond {| code := 200; message := "Location updated successfully";
             body := LocationBody location |}.

(** POST /orders/:orderId/fail (mark order as failed with reason) *)
Definition fail (userId orderId : ObjectId) (reason : string) : Handler Response :=
  found ← query (λ w, Order.findOne_owned orderId userId (orders w));
  order ← orElse {| code := 404; message := "Order not found"; body := NoBody |} found;
  now ← new_Date;
  let order := Order.push "failed"
    {| Order.e_status := "failed"; Order.timestamp := now;
       Order.notes := Some ("Delivery failed: " +:+ reason);
       Order.location := None |}
    (Order.set_failureReason reason order) in
  _ ← update (set_orders (insert orderId order));
  _ ← update (set_locations (RiderLocation.findOneAndUpdate userId
         (RiderLocation.set_currentOrder None)));
  sent ← new_Date;
  _ ← emit orderId (StatusUpdate orderId "failed" sent None (Some reason));
  respond {| code := 200; message := "Order marked as failed";
             body := OrderBody orderId order |}.

(** ** Requests and their sequential execution *)

Inductive Request :=
| Create (userId : ObjectId) (d : Order.details)
| Assign (orderId riderId : ObjectId)
| Transition (userId orderId : ObjectId) (status : string)
    (notes : option string) (latitude longitude : jsval)
| Fail (userId orderId : ObjectId) (reason : string)
| UpdateLocation (userId : ObjectId) (latitude longitude : jsval)
    (isOnline : option bool).

Definition handle (req : Request) : Handler Response :=
  match req with
  | Create u d => create u d
  | Assign o r => assign o r
  | Transition u o s n la lo => transition u o s n la lo
  | Fail u o reason => fail u o reason
  | UpdateLocation u la lo on => updateLocation u la lo on
  end.

(** The world after one request has been served. *)
Definition serve (req : Request) (w : World) : World := (finish (handle req) w).2.

(** The world after a sequence of requests served one after the other. *)
Definition serve_all (reqs : list Request) (w : World) : World :=
  foldl (λ w req, serve req w) w reqs.

End Handlers.

(** ** Two assignment requests in flight

    A handler gives up control at each [await]; between two awaits it runs
    alone.  [assign_step] is [assign] cut at its awaits: one step resumes the
    handler, runs it up to the next database call and performs that call. *)

Inductive assign_pc :=
| AtFindOrder
| AtFindRider (order : Order.t)
| AtFindActive (order : Order.t)
| AtSave (order : Order.t)
| AtUpdateLocation (order : Order.t)
| Answered (r : Response).

Definition assign_step (clock : nat → Z) (orderId riderId : ObjectId)
    (pc : assign_pc) (w : World) : assign_pc * World :=
  match pc with
  | AtFindOrder =>
    match Order.findById orderId (orders w) with
    | None => (Answered {| code := 404; message := "Order not found"; body := NoBody |}, w)
    | Some order => (AtFindRider order, w)
    end
  | AtFindRider order =>
    match User.findOne_active_rider riderId (users w) with
    | None => (Answered {| code := 404; message := "Rider not found or inactive";
                           body := NoBody |}, w)
    | Some _ => (AtFindActive order, w)
    end
  | AtFindActive order =>
    match Order.findOne_active riderId (orders w) with
    | Some _ => (Answered {| code := 400; message := "Rider already has an active order";
                             body := NoBody |}, w)
    | None => (AtSave order, w)
    end
  | AtSave order =>
    let order := Order.push "assigned"
      {| Order.e_status := "assigned"; Order.timestamp := clock (ticks w);
         Order.notes := Some "Order assigned to rider"; Order.location := None |}
      (Order.set_rider riderId order) in
    (AtUpdateLocation order, set_orders (insert orderId order) (tick w))
  | AtUpdateLocation order =>
    (Answered {| code := 200; message := "Order assigned successfully";
                 body := OrderBody orderId order |},
     set_locations (RiderLocation.findOneAndUpdate riderId
       (RiderLocation.set_currentOrder (Some orderId))) w)
  | Answered r => (Answered r, w)
  end.

(** Two [assign] requests served by one process, and the database they
    share. *)
Record Race := { req1 : assign_pc; req2 : assign_pc; shared : World }.

(** The scheduler resumes the first request ([true]) or the second
    ([false]). *)
Definition race_step (clock : nat → Z) (o1 r1 o2 r2 : ObjectId)
    (turn : bool) (s : Race) : Race :=
  if turn
  then let p := assign_step clock o1 r1 (req1 s) (shared s) in
       {| req1 := p.1; req2 := req2 s; shared := p.2 |}
  else let p := assign_step clock o2 r2 (req2 s) (shared s) in
       {| req1 := req1 s; req2 := p.1; shared := p.2 |}.

Definition race (clock : nat → Z) (o1 r1 o2 r2 : ObjectId)
    (schedule : list bool) (w : World) : Race :=
  foldl (λ s turn, race_step clock o1 r1 o2 r2 turn s)
        {| req1 := AtFindOrder; req2 := AtFindOrder; shared := w |} schedule.

(** ** Properties of states *)

(** Rider [r] holds the order stored under [i]. *)
Definition holds_active (w : World) (r i : ObjectId) : Prop :=
  ∃ o, orders w !! i = Some o ∧ Order.active_of r o.

(** A rider has at most one order that is assigned, picked up or in
    transit. *)
Definition one_active_per_rider (w : World) : Prop :=
  ∀ r i j, holds_active w r i → holds_active w r j → i = j.

(** The rider has no order in an active status. *)
Definition idle (w : World) (r : ObjectId) : Prop :=
  ∀ i, ¬ holds_active w r i.

(** An active rider account with this identifier exists. *)
Definition active_rider (w : World) (r : ObjectId) : Prop :=
  ∃ u, users w !! r = Some u ∧ User.role u = "rider" ∧ User.isActive u = true.

(** ** A small deployment to run the handlers on *)

(** A clock that advances by one millisecond per reading. *)
Definition wall (n : nat) : Z := 1000 + Z.of_nat n.

Definition parcel : Order.details :=
  {| Order.pickupAddress := "A";
     Order.pickupCoordinates := {| latitude := JNum (247 # 10); longitude := JNum (467 # 10) |};
     Order.dropoffAddress := "B";
     Order.dropoffCoordinates := {| latitude := JNum (248 # 10); longitude := JNum (466 # 10) |};
     Order.deliveryDate := "2024-05-01";
     Order.deliveryTime := "10:00";
     Order.customerName := "Customer";
     Order.customerPhone := "0500000000";
     Order.productDescription := "Box";
     Order.productWeight := JNum (2 # 1);
     Order.productImages := [] |}.

(** Business 9; riders 1 and 2, both active.  Rider 1 has a location record,
    rider 2 has not sent a position yet.  No orders. *)
Definition depot : World :=
  {| orders := ∅;
     users := <[9%N := {| User.role := "business"; User.isActive := true |}]>
              (<[1%N := {| User.role := "rider"; User.isActive := true |}]>
              (<[2%N := {| User.role := "rider"; User.isActive := true |}]> ∅));
     locations := {[ 1%N := {| RiderLocation.location :=
                                 {| latitude := JNum (0 # 1); longitude := JNum (0 # 1) |};
                               RiderLocation.isOnline := false;
                               RiderLocation.currentOrder := None |} ]};
     ticks := 0;
     emitted := [];
     rooms := {[ 0%N := [100%N] ]};
     delivered := [] |}.

(** The order as [assign] stores it. *)
Definition assigned (clock : nat → Z) (w : World) (riderId : ObjectId) (o : Order.t) : Order.t :=
  Order.push "assigned"
    {| Order.e_status := "assigned"; Order.timestamp := clock (ticks w);
       Order.notes := Some "Order assigned to rider"; Order.location := None |}
    (Order.set_rider riderId o).


(** The depot after business 9 has created two orders, 0 and 1. *)
Definition two_orders : World :=
  serve_all wall [Create 9%N parcel; Create 9%N parcel] depot.

(** Order 0 has been assigned to rider 1, who has delivered it. *)
Definition after_delivery : World :=
  serve_all wall
    [Assign 0%N 1%N; Transition 1%N 0%N "delivered" None JUndefined JUndefined]
    two_orders.

(** The timeline entry [transition] pushes. *)
Definition status_entry (clock : nat → Z) (w : World) (status : string)
    (notes : option string) (latitude longitude : jsval) : Order.entry :=
  {| Order.e_status := status; Order.timestamp := clock (ticks w);
     Order.notes := notes;
     Order.location :=
       if truthy latitude && truthy longitude
       then Some {| latitude := latitude; longitude := longitude |}
       else None |}.

(** The order as [transition] stores it. *)
Definition transitioned (clock : nat → Z) (w : World) (status : string)
    (notes : option string) (latitude longitude : jsval) (o : Order.t) : Order.t :=
  let pushed := Order.push status (status_entry clock w status notes latitude longitude) o in
  if String.eqb status "delivered"
  then Order.set_actualDeliveryTime (clock (S (ticks w))) pushed
  else pushed.

(** Order 0 is assigned to rider 1, whose location record points at it. *)
Definition on_the_road : World := serve wall (Assign 0%N 1%N) two_orders.

(** The order as [fail] stores it. *)
Definition failed (clock : nat → Z) (w : World) (reason : string) (o : Order.t) : Order.t :=
  Order.push "failed"
    {| Order.e_status := "failed"; Order.timestamp := clock (ticks w);
       Order.notes := Some ("Delivery failed: " +:+ reason);
       Order.location := None |}
    (Order.set_failureReason reason o).

(** [fail] in the words of the specification (4.2): the transition to
    [failed] with the notes "Delivery failed: <reason>" and no coordinates,
    which additionally sets [failureReason] on the order it stored and
    answered with. *)
Definition fail_as_transition (clock : nat → Z) (userId orderId : ObjectId)
    (reason : string) : Handler Response := λ w,
  let out := finish (transition clock userId orderId "failed"
                       (Some ("Delivery failed: " +:+ reason)) JUndefined JUndefined) w in
  match body out.1 with
  | OrderBody i o =>
    (inl {| code := code out.1; message := message out.1;
            body := OrderBody i (Order.set_failureReason reason o) |},
     set_orders (alter (Order.set_failureReason reason) orderId) out.2)
  | _ => (inl out.1, out.2)
  end.

(** What an event says apart from its location and reason: the order, the
    status of a status update, and the time. *)
Definition headline (ev : Event) : ObjectId * option string * Z :=
  match ev with
  | StatusUpdate o s t _ _ => (o, Some s, t)
  | LocationUpdate o _ t => (o, None, t)
  end.

(** The rider's record as [updateLocation] leaves it. *)
Definition positioned (w : World) (userId : ObjectId) (latitude longitude : jsval)
    (isOnline : option bool) : RiderLocation.t :=
  {| RiderLocation.location := {| latitude := latitude; longitude := longitude |};
     RiderLocation.isOnline := match isOnline with Some b => b | None => true end;
     RiderLocation.currentOrder :=
       match locations w !! userId with
       | Some l => RiderLocation.currentOrder l
       | None => None
       end |}.

(** What a request in flight has answered, if it has. *)
Definition answer (pc : assign_pc) : option Response :=
  match pc with
  | Answered r => Some r
  | _ => None
  end.

(** An [assign] request resumed [n] times with nothing else running. *)
Definition assign_alone (clock : nat → Z) (orderId riderId : ObjectId) (n : nat)
    (w : World) : assign_pc * World :=
  Nat.iter n (λ p, assign_step clock orderId riderId p.1 p.2) (AtFindOrder, w).

(** The request is a status update that moves an order of the rider from a
    status outside assigned, picked up and in transit to one of the three. *)
Definition reactivates (w : World) (req : Request) : bool :=
  match req with
  | Transition userId orderId status _ _ _ =>
    match Order.findOne_owned orderId userId (orders w) with
    | Some o => Order.active status && negb (Order.active (Order.status o))
    | None => false
    end
  | _ => false
  end.

(** Rider [r] has at most one order that is assigned, picked up or in
    transit. *)
Definition one_active (w : World) (r : ObjectId) : Prop :=
  ∀ i j, holds_active w r i → holds_active w r j → i = j.

(** The request is a status update by rider [r] that moves one of their
    orders from a status outside assigned, picked up and in transit to one of
    the three while the rider holds an active order. *)
Definition overloads (w : World) (r : ObjectId) (req : Request) : bool :=
  match req with
  | Transition userId _ _ _ _ _ =>
    bool_decide (userId = r)
    && reactivates w req
    && bool_decide (is_Some (Order.findOne_active r (orders w)))
  | _ => false
  end.

(** No request of the sequence overloads rider [r] in the world it is served
    in. *)
Fixpoint never_overloaded (clock : nat → Z) (r : ObjectId) (reqs : list Request)
    (w : World) : bool :=
  match reqs with
  | [] => true
  | req :: rest =>
    negb (overloads w r req) && never_overloaded clock r rest (serve clock req w)
  end.

(** The timestamps of a timeline never decrease. *)
Definition chronological (tl : list Order.entry) : Prop :=
  StronglySorted Z.le (Order.timestamp <$> tl).

(** The last timeline entry of an order carries the order's status. *)
Definition status_recorded (o : Order.t) : Prop :=
  Order.e_status <$> last (Order.timeline o) = Some (Order.status o).

(** The timestamps of the timeline are the clock readings number [reads],
    entry by entry. *)
Definition stamped_by (clock : nat → Z) (reads : list nat) (tl : list Order.entry) : Prop :=
  Order.timestamp <$> tl = clock <$> reads.

(** Every stored timeline ends in the order's status, and its timestamps are
    clock readings already taken, each a later reading than the one before. *)
Definition timelines_traced (clock : nat → Z) (w : World) : Prop :=
  ∀ i o, orders w !! i = Some o →
    status_recorded o
    ∧ ∃ reads, stamped_by clock reads (Order.timeline o)
        ∧ StronglySorted lt reads
        ∧ Forall (λ n, (n < ticks w)%nat) reads.

(** A clock that is set back by one millisecond between any two readings. *)
Definition backwards (n : nat) : Z := 1000 - Z.of_nat n.

(** A working day at the depot: two orders, order 0 carried to the customer
    by rider 1 while a second assignment is refused, then order 1 assigned to
    the same rider, who cannot deliver it. *)
Definition working_day : list Request :=
  [ Create 9%N parcel; Create 9%N parcel;
    Assign 0%N 1%N; Assign 1%N 1%N;
    Transition 1%N 0%N "picked_up" None (JNum (247 # 10)) (JNum (467 # 10));
    UpdateLocation 1%N (JNum (2475 # 100)) (JNum (4665 # 100)) None;
    Transition 1%N 0%N "in_transit" (Some "on my way") JUndefined JUndefined;
    Transition 1%N 0%N "delivered" None (JNum (248 # 10)) (JNum (466 # 10));
    Assign 1%N 1%N;
    Fail 1%N 1%N "customer unreachable" ].

(** Rider 1 delivers order 0 and, holding nothing, reports it in transit
    again; the assignment of order 1 that follows is refused, and rider 1
    ends the day with order 0 in transit. *)
Definition busy_day : list Request :=
  [ Create 9%N parcel; Create 9%N parcel;
    Assign 0%N 1%N;
    Transition 1%N 0%N "picked_up" None (JNum (247 # 10)) (JNum (467 # 10));
    Transition 1%N 0%N "delivered" None (JNum (248 # 10)) (JNum (466 # 10));
    Transition 1%N 0%N "in_transit" (Some "wrong door") JUndefined JUndefined;
    Assign 1%N 1%N ].

(** Rider 1 delivers order 0, is assigned order 1, and then reports the
    delivered order 0 as in transit again. *)
Definition second_thoughts : list Request :=
  [ Create 9%N parcel; Create 9%N parcel;
    Assign 0%N 1%N;
    Transition 1%N 0%N "delivered" None JUndefined JUndefined;
    Assign 1%N 1%N;
    Transition 1%N 0%N "in_transit" None JUndefined JUndefined ].

(** ** The routes around the core

    - [toggleOnline]   POST  /toggle-online (rider routes)
    - [toggleStatus]   PATCH /users/:userId/toggle-status (admin routes)
    - [getOrder]       GET   /:orderId (routes/orderRoute.js)
    - the counts of the rider dashboard, of the admin dashboard and of the
      rider and business lists, and the paging of the list routes.

    A handler whose 200 answer is not an order or a location record hands
    that answer back as its value; its early answers are the error
    responses. *)

(** The early answer of a handler, if it gave one, and its value otherwise. *)
Definition refusal {A} (r : Response + A) : option Response :=
  match r with
  | inl e => Some e
  | inr _ => None
  end.

Definition value {A} (r : Response + A) : option A :=
  match r with
  | inl _ => None
  | inr a => Some a
  end.

Definition set_users (f : gmap ObjectId User.t → gmap ObjectId User.t) (w : World) : World :=
  {| orders := orders w; users := f (users w); locations := locations w;
     ticks := ticks w; emitted := emitted w; rooms := rooms w;
     delivered := delivered w |}.

(** [location.isOnline = !location.isOnline] *)
Definition flip_isOnline (l : RiderLocation.t) : RiderLocation.t :=
  {| RiderLocation.location := RiderLocation.location l;
     RiderLocation.isOnline := negb (RiderLocation.isOnline l);
     RiderLocation.currentOrder := RiderLocation.currentOrder l |}.

(** [user.isActive = !user.isActive] *)
Definition flip_isActive (u : User.t) : User.t :=
  {| User.role := User.role u; User.isActive := negb (User.isActive u) |}.

(** POST /toggle-online.  The value is [{ message, isOnline }]. *)
Definition toggleOnline (userId : ObjectId) : Handler (string * bool) :=
  found ← query (λ w, locations w !! userId);
  location ← orElse {| code := 404; message := "Location record not found";
                       body := NoBody |} found;
  let location := flip_isOnline location in
  _ ← update (set_locations (insert userId location));
  mret ("Status updated to " +:+
          (if RiderLocation.isOnline location then "online" else "offline"),
        RiderLocation.isOnline location).

(** PATCH /users/:userId/toggle-status (block or unblock a user).  The value
    is [{ message, user: { id, isActive } }]; the user's e-mail address, which
    the answer also carries, is not part of [User.t]. *)
Definition toggleStatus (userId : ObjectId) : Handler (string * (ObjectId * bool)) :=
  found ← query (λ w, users w !! userId);
  user ← orElse {| code := 404; message := "User not found"; body := NoBody |} found;
  let user := flip_isActive user in
  _ ← update (set_users (insert userId user));
  mret ("User " +:+ (if User.isActive user then "activated" else "deactivated")
          +:+ " successfully",
        (userId, User.isActive user)).

(** [req.user], as the authentication middleware leaves it. *)
Record Caller := { caller_id : ObjectId; caller_role : string }.

(** [.populate(path)]: the referenced user when the collection has it, null
    when the reference is unset or dangling.  Only the identifier of the
    populated document is looked at. *)
Definition populate (ref : option ObjectId) (coll : gmap ObjectId User.t)
  : option ObjectId :=
  match ref with
  | Some r => match coll !! r with Some _ => Some r | None => None end
  | None => None
  end.

(** The permission test of GET /:orderId on the populated order:
    [order.business._id.equals(req.user._id) ||
     (order.rider && order.rider._id.equals(req.user._id)) ||
     req.user.role === 'admin']. *)
Definition canView (caller : Caller) (business : ObjectId) (rider : option ObjectId)
  : bool :=
  bool_decide (business = caller_id caller)
  || match rider with
     | Some r => bool_decide (r = caller_id caller)
     | None => false
     end
  || String.eqb (caller_role caller) "admin".

(** The order as answered after [populate('rider')]: the rider reference is
    the one [populate] found, null when the account is gone.  What else the
    populated user documents carry is not part of [Order.t]. *)
Definition with_rider (r : option ObjectId) (o : Order.t) : Order.t :=
  {| Order.business := Order.business o; Order.rider := r;
     Order.status := Order.status o; Order.timeline := Order.timeline o;
     Order.failureReason := Order.failureReason o;
     Order.actualDeliveryTime := Order.actualDeliveryTime o;
     Order.info := Order.info o |}.

(** GET /:orderId (order details).  Reading [order.business._id] of an order
    whose business account is gone throws, which the handler turns into a
    500.  The 200 answer is the populated order. *)
Definition getOrder (caller : Caller) (orderId : ObjectId) : Handler Response :=
  found ← query (λ w, Order.findById orderId (orders w));
  order ← orElse {| code := 404; message := "Order not found"; body := NoBody |} found;
  business ← query (λ w, populate (Some (Order.business order)) (users w));
  rider ← query (λ w, populate (Order.rider order) (users w));
  business ← orElse {| code := 500; message := "Server error"; body := NoBody |} business;
  if canView caller business rider
  then respond {| code := 200; message := "";
                  body := OrderBody orderId (with_rider rider order) |}
  else respond {| code := 403; message := "Access denied"; body := NoBody |}.

(** *** Counts *)

(** [Order.countDocuments(filter)] *)
Definition count_orders (P : Order.t → Prop) `{∀ o, Decision (P o)} (w : World) : nat :=
  length (filter (λ p, P p.2) (map_to_list (orders w))).

(** [User.countDocuments(filter)] *)
Definition count_users (P : User.t → Prop) `{∀ u, Decision (P u)} (w : World) : nat :=
  length (filter (λ p, P p.2) (map_to_list (users w))).

(** The counts of GET /dashboard (rider) that are not bounded by a date, and
    its [currentOrder]: the rider's orders in all, delivered, and cancelled or
    failed ([allTime]); those assigned, picked up or in transit
    ([today.pending]); and one of the latter. *)
Record RiderDashboard := {
  allTime_total : nat;
  allTime_completed : nat;
  allTime_cancelled : nat;
  today_pending : nat;
  dashboard_currentOrder : option (ObjectId * Order.t)
}.

Definition riderDashboard (userId : ObjectId) (w : World) : RiderDashboard :=
  {| allTime_total := count_orders (λ o, Order.rider o = Some userId) w;
     allTime_completed :=
       count_orders (λ o, Order.rider o = Some userId ∧ Order.status o = "delivered") w;
     allTime_cancelled :=
       count_orders (λ o, Order.rider o = Some userId
                          ∧ Order.status o ∈ ["cancelled"; "failed"]) w;
     today_pending := count_orders (Order.active_of userId) w;
     dashboard_currentOrder := Order.findOne_active userId (orders w) |}.

(** The counts of GET /dashboard/stats (admin) that are not bounded by a
    date: users by role, riders online, and orders by status. *)
Record AdminStats := {
  users_total : nat;
  users_businesses : nat;
  users_riders : nat;
  users_activeRiders : nat;
  orders_total : nat;
  orders_pending : nat;
  orders_inProgress : nat;
  orders_completed : nat;
  orders_cancelled : nat
}.

Definition adminStats (w : World) : AdminStats :=
  {| users_total := count_users (λ _, True) w;
     users_businesses := count_users (λ u, User.role u = "business") w;
     users_riders := count_users (λ u, User.role u = "rider") w;
     users_activeRiders :=
       length (filter (λ p, RiderLocation.isOnline p.2 = true)
                 (map_to_list (locations w)));
     orders_total := count_orders (λ _, True) w;
     orders_pending := count_orders (λ o, Order.status o = "pending") w;
     orders_inProgress := count_orders (λ o, Order.active (Order.status o) = true) w;
     orders_completed := count_orders (λ o, Order.status o = "delivered") w;
     orders_cancelled := count_orders (λ o, Order.status o ∈ ["cancelled"; "failed"]) w |}.

(** What GET /riders adds to each rider: [isOnline: location?.isOnline ||
    false], [currentLocation: location?.location] and [hasActiveOrder:
    !!currentOrder]. *)
Record RiderStatus := {
  shown_online : bool;
  currentLocation : option Coordinates;
  hasActiveOrder : bool
}.

Definition riderStatus (riderId : ObjectId) (w : World) : RiderStatus :=
  let location := locations w !! riderId in
  let currentOrder := Order.findOne_active riderId (orders w) in
  {| shown_online := match location with
                     | Some l => RiderLocation.isOnline l || false
                     | None => false
                     end;
     currentLocation := RiderLocation.location <$> location;
     hasActiveOrder := bool_decide (is_Some currentOrder) |}.

(** What GET /businesses adds to each business: [orderStats]. *)
Record OrderStats := { stats_total : nat; stats_completed : nat; stats_pending : nat }.

Definition orderStats (businessId : ObjectId) (w : World) : OrderStats :=
  {| stats_total := count_orders (λ o, Order.business o = businessId) w;
     stats_completed :=
       count_orders (λ o, Order.business o = businessId ∧ Order.status o = "delivered") w;
     stats_pending :=
       count_orders (λ o, Order.business o = businessId ∧ Order.status o = "pending") w |}.

(** *** Paging of the list routes

    [find(query).sort({ createdAt: -1 }).limit(limit * 1).skip((page - 1) *
    limit)] and [pages: Math.ceil(total / limit)], for [page] and [limit]
    that are non-negative integers.  [matching] is the sorted result of the
    query before paging.  The database applies the skip before the limit,
    takes a limit of 0 as no limit, and rejects a negative skip, which the
    handler answers with a 500.  The quotient of two counts below 2^53 is
    rounded up exactly; a division by 0 gives no finite number. *)

Definition paged {A} (matching : list A) (page limit : nat) : option (list A) :=
  if Nat.eqb page 0 && negb (Nat.eqb limit 0) then None
  else
    let rest := drop ((page - 1) * limit) matching in
    Some (if Nat.eqb limit 0 then rest else take limit rest).

Definition pages (total limit : nat) : option nat :=
  if Nat.eqb limit 0 then None
  else Some (total `div` limit + (if Nat.eqb (total `mod` limit) 0 then 0 else 1)).

(** Who GET /:orderId lets see order [o]: the business that created it, the
    rider it is assigned to if that account exists, and every
    administrator. *)
Definition may_view (w : World) (caller : Caller) (o : Order.t) : Prop :=
  Order.business o = caller_id caller
  ∨ (Order.rider o = Some (caller_id caller) ∧ is_Some (users w !! caller_id caller))
  ∨ caller_role caller = "admin".

(** 1 when the order satisfies the filter, 0 otherwise. *)
Definition counted (P : Order.t → Prop) `{∀ o, Decision (P o)} (o : Order.t) : nat :=
  if decide (P o) then 1 else 0.

(** The order a request addresses: the one it names, or for a create the
    identifier the new order gets. *)
Definition addressed_order (req : Request) (w : World) : option ObjectId :=
  match req with
  | Create _ _ => Some (fresh (dom (orders w)))
  | Assign orderId _ => Some orderId
  | Transition _ orderId _ _ _ _ => Some orderId
  | Fail _ orderId _ => Some orderId
  | UpdateLocation _ _ _ _ => None
  end.

(** The rider whose location record a request may write. *)
Definition addressed_rider (req : Request) : option ObjectId :=
  match req with
  | Assign _ riderId => Some riderId
  | Fail userId _ _ => Some userId
  | UpdateLocation userId _ _ _ => Some userId
  | Create _ _ | Transition _ _ _ _ _ _ => None
  end.
(** * Proofs *)

(** ** What the queries find *)

Lemma findOne_active_None riderId (coll : gmap ObjectId Order.t) :
  Order.findOne_active riderId coll = None ↔
  ∀ i o, coll !! i = Some o → ¬ Order.active_of riderId o.
Proof.
  unfold Order.findOne_active.
  rewrite head_None, map_to_list_empty_iff, map_empty_filter.
  unfold map_Forall. reflexivity.
Qed.

Lemma findOne_active_Some riderId (coll : gmap ObjectId Order.t) :
  is_Some (Order.findOne_active riderId coll) ↔
  ∃ i o, coll !! i = Some o ∧ Order.active_of riderId o.
Proof.
  rewrite <- not_eq_None_Some, findOne_active_None. split.
  - intros Hn. destruct (Order.findOne_active riderId coll) as [[i o]|] eqn:E.
    + unfold Order.findOne_active in E. apply head_Some_elem_of in E.
      apply elem_of_map_to_list in E. apply map_lookup_filter_Some in E.
      exists i, o. exact E.
    + exfalso. apply Hn. apply findOne_active_None. exact E.
  - intros (i & o & Hi & Ha) Hn. exact (Hn i o Hi Ha).
Qed.

Lemma idle_findOne_active w r :
  idle w r ↔ Order.findOne_active r (orders w) = None.
Proof.
  rewrite findOne_active_None. unfold idle, holds_active. split.
  - intros H i o Hi Ha. apply (H i). eauto.
  - intros H i (o & Hi & Ha). exact (H i o Hi Ha).
Qed.

Lemma active_rider_findOne w r :
  active_rider w r ↔ is_Some (User.findOne_active_rider r (users w)).
Proof.
  unfold active_rider, User.findOne_active_rider. split.
  - intros (u & -> & Hr & Ha). rewrite Hr, Ha. simpl. eauto.
  - destruct (users w !! r) as [u|]; [|intros [? ?]; discriminate].
    destruct (String.eqb (User.role u) "rider") eqn:Hr; simpl;
      [|intros [? ?]; discriminate].
    destruct (User.isActive u) eqn:Ha; [|intros [? ?]; discriminate].
    intros _. exists u. apply String.eqb_eq in Hr. auto.
Qed.

Lemma findOne_owned_Some orderId userId (coll : gmap ObjectId Order.t) o :
  Order.findOne_owned orderId userId coll = Some o ↔
  coll !! orderId = Some o ∧ Order.rider o = Some userId.
Proof.
  unfold Order.findOne_owned. destruct (coll !! orderId) as [o'|].
  - destruct (decide (Order.rider o' = Some userId)); split.
    + intros [= <-]; auto.
    + intros [[= <-] _]; reflexivity.
    + discriminate.
    + intros [[= <-] ?]; contradiction.
  - split; [discriminate | intros [? _]; discriminate].
Qed.

Lemma findOne_owned_None orderId userId (coll : gmap ObjectId Order.t) :
  Order.findOne_owned orderId userId coll = None ↔
  coll !! orderId = None ∨
  ∃ o, coll !! orderId = Some o ∧ Order.rider o ≠ Some userId.
Proof.
  unfold Order.findOne_owned. destruct (coll !! orderId) as [o'|].
  - destruct (decide (Order.rider o' = Some userId)); split.
    + discriminate.
    + intros [? | (o & [= <-] & ?)]; [discriminate | contradiction].
    + intros _. right. eauto.
    + reflexivity.
  - split; auto.
Qed.

(** Unfolds a handler applied to a world down to its reads and writes. *)
Ltac run_handler :=
  unfold finish, create, transition, assign, updateLocation, fail, emit,
    new_Date, orElse, respond, query, update, db,
    mbind, mret, Handler_bind, Handler_ret; simpl.

(** The answers of the working day, in order: the second assignment to the
    busy rider is refused, everything else goes through. *)
Example working_day_answers :
  (fix go reqs w :=
     match reqs with
     | [] => []
     | req :: rest => code (finish (handle wall req) w).1 :: go rest (serve wall req w)
     end) working_day depot
  = [201; 201; 200; 400; 200; 200; 200; 200; 200; 200].
Proof. vm_compute. reflexivity. Qed.

(** ** Assignment *)

Lemma assign_success clock w orderId riderId o :
  orders w !! orderId = Some o → active_rider w riderId → idle w riderId →
  finish (assign clock orderId riderId) w =
    ({| code := 200; message := "Order assigned successfully";
        body := OrderBody orderId (assigned clock w riderId o) |},
     set_locations (RiderLocation.findOneAndUpdate riderId
                      (RiderLocation.set_currentOrder (Some orderId)))
       (set_orders (insert orderId (assigned clock w riderId o)) (tick w))).
Proof.
  intros Ho Hr Hi. apply active_rider_findOne in Hr as [u Hu].
  apply idle_findOne_active in Hi.
  run_handler. unfold Order.findById. rewrite Ho, Hu. simpl. rewrite Hi.
  reflexivity.
Qed.

Lemma assign_order_missing clock w orderId riderId :
  orders w !! orderId = None →
  finish (assign clock orderId riderId) w =
    ({| code := 404; message := "Order not found"; body := NoBody |}, w).
Proof. intros Ho. run_handler. unfold Order.findById. rewrite Ho. reflexivity. Qed.

Lemma assign_rider_missing clock w orderId riderId :
  is_Some (orders w !! orderId) → ¬ active_rider w riderId →
  finish (assign clock orderId riderId) w =
    ({| code := 404; message := "Rider not found or inactive"; body := NoBody |}, w).
Proof.
  intros [o Ho] Hr. rewrite active_rider_findOne, <- eq_None_not_Some in Hr.
  run_handler. unfold Order.findById. rewrite Ho. simpl. rewrite Hr. reflexivity.
Qed.

Lemma assign_rider_busy clock w orderId riderId :
  is_Some (orders w !! orderId) → active_rider w riderId → ¬ idle w riderId →
  finish (assign clock orderId riderId) w =
    ({| code := 400; message := "Rider already has an active order"; body := NoBody |}, w).
Proof.
  intros [o Ho] Hr Hi. apply active_rider_findOne in Hr as [u Hu].
  rewrite idle_findOne_active in Hi.
  run_handler. unfold Order.findById. rewrite Ho, Hu. simpl.
  destruct (Order.findOne_active riderId (orders w)); [reflexivity | contradiction].
Qed.



(** C9.  [assign] never looks at the order's status or at the rider it had:
    whenever the order exists and the target rider is active and holds no
    active order, the call answers 200 and the stored order has the new
    rider and status [assigned]. *)
Theorem assign_ignores_order_status (clock : nat → Z) (w : World)
    (orderId riderId : ObjectId) (o : Order.t) :
  orders w !! orderId = Some o →
  active_rider w riderId →
  idle w riderId →
  code (finish (assign clock orderId riderId) w).1 = 200
  ∧ ∃ o', orders (finish (assign clock orderId riderId) w).2 !! orderId = Some o'
        ∧ Order.rider o' = Some riderId
        ∧ Order.status o' = "assigned".
Proof.
  intros Ho Hr Hi. rewrite (assign_success clock w orderId riderId o) by assumption.
  simpl. split; [reflexivity|].
  exists (assigned clock w riderId o). rewrite lookup_insert_eq. auto.
Qed.

(** The delivered order 0 of rider 1 is handed to rider 2. *)
Lemma assign_ignores_order_status_witness :
  (Order.status <$> orders after_delivery !! 0%N = Some "delivered"
   ∧ Order.rider <$> orders after_delivery !! 0%N = Some (Some 1%N))
  ∧ code (finish (assign wall 0%N 2%N) after_delivery).1 = 200
  ∧ ∃ o', orders (finish (assign wall 0%N 2%N) after_delivery).2 !! 0%N = Some o'
        ∧ Order.rider o' = Some 2%N
        ∧ Order.status o' = "assigned".
Proof.
  split; [split; vm_compute; reflexivity|].
  destruct (orders after_delivery !! 0%N) as [o|] eqn:Ho; [|vm_compute in Ho; discriminate].
  apply (assign_ignores_order_status wall after_delivery 0%N 2%N o Ho).
  - apply active_rider_findOne. vm_compute. eexists. reflexivity.
  - apply idle_findOne_active. vm_compute. reflexivity.
Defined.

(** ** Status updates by the rider *)

Lemma transition_not_found clock w userId orderId status notes la lo :
  Order.findOne_owned orderId userId (orders w) = None →
  finish (transition clock userId orderId status notes la lo) w =
    ({| code := 404; message := "Order not found"; body := NoBody |}, w).
Proof. intros H. run_handler. rewrite H. reflexivity. Qed.

Lemma transition_found clock w userId orderId status notes la lo o :
  Order.findOne_owned orderId userId (orders w) = Some o →
  let out := finish (transition clock userId orderId status notes la lo) w in
  let reads := if String.eqb status "delivered" then 2 else 1 in
  out.1 = {| code := 200; message := "Order status updated successfully";
             body := OrderBody orderId (transitioned clock w status notes la lo o) |}
  ∧ orders out.2 = <[orderId := transitioned clock w status notes la lo o]> (orders w)
  ∧ users out.2 = users w
  ∧ locations out.2 = locations w
  ∧ rooms out.2 = rooms w
  ∧ ticks out.2 = S (reads + ticks w)
  ∧ emitted out.2 = (emitted w ++
      [(orderId, StatusUpdate orderId status (clock (reads + ticks w))
                   (Some {| latitude := la; longitude := lo |}) None)])%list.
Proof.
  intros H. run_handler. rewrite H. simpl. unfold transitioned.
  destruct (String.eqb status "delivered"); simpl; repeat split; reflexivity.
Qed.

(** A status update never writes to the rider-location collection. *)
Lemma transition_leaves_locations clock w userId orderId status notes la lo :
  locations (finish (transition clock userId orderId status notes la lo) w).2
  = locations w.
Proof.
  destruct (Order.findOne_owned orderId userId (orders w)) as [o|] eqn:H.
  - apply (transition_found clock w userId orderId status notes la lo o H).
  - rewrite transition_not_found by assumption. reflexivity.
Qed.

(** C1.  Rider 1 delivers order 0, which their location record points at.
    The call answers 200 and the stored order has status [delivered] and the
    clock reading taken for it as [actualDeliveryTime]; the rider's
    [currentOrder] still holds order 0. *)
Theorem delivered_keeps_currentOrder :
  let out := finish (transition wall 1%N 0%N "delivered" None JUndefined JUndefined)
               on_the_road in
  RiderLocation.currentOrder <$> locations on_the_road !! 1%N = Some (Some 0%N)
  ∧ code out.1 = 200
  ∧ Order.status <$> orders out.2 !! 0%N = Some "delivered"
  ∧ Order.actualDeliveryTime <$> orders out.2 !! 0%N = Some (Some (wall 4))
  ∧ RiderLocation.currentOrder <$> locations out.2 !! 1%N = Some (Some 0%N).
Proof. cbv zeta. repeat split; vm_compute; reflexivity. Qed.

(** The order is missing or belongs to someone else exactly when the answer
    is 404. *)
Lemma transition_404_iff clock w userId orderId status notes la lo :
  code (finish (transition clock userId orderId status notes la lo) w).1 = 404 ↔
  orders w !! orderId = None
  ∨ ∃ o, orders w !! orderId = Some o ∧ Order.rider o ≠ Some userId.
Proof.
  rewrite <- findOne_owned_None.
  destruct (Order.findOne_owned orderId userId (orders w)) as [o|] eqn:H.
  - destruct (transition_found clock w userId orderId status notes la lo o H) as [-> _].
    simpl. split; discriminate.
  - rewrite transition_not_found by assumption. simpl. tauto.
Qed.

(** Any status string is stored, whatever the status was before. *)
Lemma transition_any_status clock w userId orderId status notes la lo o :
  orders w !! orderId = Some o → Order.rider o = Some userId →
  let out := finish (transition clock userId orderId status notes la lo) w in
  code out.1 = 200
  ∧ ∃ o', orders out.2 !! orderId = Some o'
      ∧ Order.status o' = status
      ∧ Order.timeline o' =
          (Order.timeline o ++ [status_entry clock w status notes la lo])%list.
Proof.
  intros Ho Hr. cbv zeta.
  assert (H : Order.findOne_owned orderId userId (orders w) = Some o)
    by (apply findOne_owned_Some; auto).
  destruct (transition_found clock w userId orderId status notes la lo o H)
    as (-> & -> & _).
  split; [reflexivity|]. eexists. rewrite lookup_insert_eq. split; [reflexivity|].
  unfold transitioned. destruct (String.eqb status "delivered"); simpl; auto.
Qed.

(** C6.  Rider 1 reports order 0 picked up on the equator, at latitude 0 and
    longitude 46.7: both coordinates are supplied, the call answers 200, and
    the timeline entry it appends has no location. *)
Theorem transition_drops_zero_coordinate :
  let out := finish (transition wall 1%N 0%N "picked_up" (Some "at the shop")
                       (JNum (0 # 1)) (JNum (467 # 10))) on_the_road in
  code out.1 = 200
  ∧ (last ∘ Order.timeline) <$> orders out.2 !! 0%N =
      Some (Some {| Order.e_status := "picked_up"; Order.timestamp := wall 3;
                    Order.notes := Some "at the shop"; Order.location := None |}).
Proof. cbv zeta. split; vm_compute; reflexivity. Qed.

(** ** Failed deliveries *)

Lemma fail_not_found clock w userId orderId reason :
  Order.findOne_owned orderId userId (orders w) = None →
  finish (fail clock userId orderId reason) w =
    ({| code := 404; message := "Order not found"; body := NoBody |}, w).
Proof. intros H. run_handler. rewrite H. reflexivity. Qed.

Lemma fail_found clock w userId orderId reason o :
  Order.findOne_owned orderId userId (orders w) = Some o →
  finish (fail clock userId orderId reason) w =
    ({| code := 200; message := "Order marked as failed";
        body := OrderBody orderId (failed clock w reason o) |},
     publish orderId
       (StatusUpdate orderId "failed" (clock (S (ticks w))) None (Some reason))
       (tick (set_locations
                (RiderLocation.findOneAndUpdate userId
                   (RiderLocation.set_currentOrder None))
                (set_orders (insert orderId (failed clock w reason o)) (tick w))))).
Proof. intros H. run_handler. rewrite H. reflexivity. Qed.

Lemma fail_as_transition_not_found clock w userId orderId reason :
  Order.findOne_owned orderId userId (orders w) = None →
  finish (fail_as_transition clock userId orderId reason) w =
    ({| code := 404; message := "Order not found"; body := NoBody |}, w).
Proof.
  intros H. unfold fail_as_transition, finish at 1.
  rewrite transition_not_found by assumption. reflexivity.
Qed.

Lemma fail_as_transition_found clock w userId orderId reason o :
  Order.findOne_owned orderId userId (orders w) = Some o →
  finish (fail_as_transition clock userId orderId reason) w =
    ({| code := 200; message := "Order status updated successfully";
        body := OrderBody orderId (failed clock w reason o) |},
     publish orderId
       (StatusUpdate orderId "failed" (clock (S (ticks w)))
          (Some {| latitude := JUndefined; longitude := JUndefined |}) None)
       (tick (set_orders (insert orderId (failed clock w reason o)) (tick w)))).
Proof.
  intros H. unfold fail_as_transition, finish at 1.
  run_handler. rewrite H. simpl. unfold set_orders, publish, tick. simpl.
  rewrite alter_insert_eq. reflexivity.
Qed.

(** C5, amended.  [fail] stores and answers with the same order as the
    transition to [failed] with notes "Delivery failed: <reason>" followed by
    setting [failureReason], leaves users alone, reads the clock as often,
    and publishes to the same room events with the same order, status and
    time; its event carries the reason and no location, the transition's a
    location and no reason.  Where the order is missing or not the rider's,
    both answer 404 and change nothing. *)
Theorem fail_refines_transition (clock : nat → Z) (w : World)
    (userId orderId : ObjectId) (reason : string) :
  let f := finish (fail clock userId orderId reason) w in
  let t := finish (fail_as_transition clock userId orderId reason) w in
  code f.1 = code t.1
  ∧ body f.1 = body t.1
  ∧ orders f.2 = orders t.2
  ∧ users f.2 = users t.2
  ∧ ticks f.2 = ticks t.2
  ∧ rooms f.2 = rooms t.2
  ∧ prod_map id headline <$> emitted f.2 = prod_map id headline <$> emitted t.2
  ∧ prod_map id headline <$> delivered f.2 = prod_map id headline <$> delivered t.2
  ∧ match Order.findOne_owned orderId userId (orders w) with
    | Some o =>
      body f.1 = OrderBody orderId (failed clock w reason o)
      ∧ Order.failureReason (failed clock w reason o) = Some reason
      ∧ ∃ at_time,
          emitted f.2 = (emitted w ++
            [(orderId, StatusUpdate orderId "failed" at_time None (Some reason))])%list
          ∧ emitted t.2 = (emitted w ++
            [(orderId, StatusUpdate orderId "failed" at_time
                (Some {| latitude := JUndefined; longitude := JUndefined |}) None)])%list
    | None => f = t ∧ f.2 = w ∧ code f.1 = 404
    end.
Proof.
  cbv zeta. destruct (Order.findOne_owned orderId userId (orders w)) as [o|] eqn:H.
  - rewrite (fail_found clock w userId orderId reason o H).
    rewrite (fail_as_transition_found clock w userId orderId reason o H).
    simpl. rewrite !fmap_app, <- !list_fmap_compose.
    repeat split; try reflexivity.
    exists (clock (S (ticks w))). split; reflexivity.
  - rewrite fail_not_found, fail_as_transition_not_found by assumption.
    simpl. repeat split; reflexivity.
Qed.

(** C5 as stated fails: when rider 1 fails order 0 on the road, [fail]
    clears the rider's [currentOrder] and publishes the reason, and the
    transition to [failed] does neither. *)
Lemma fail_differs_from_transition :
  let f := finish (fail wall 1%N 0%N "customer unreachable") on_the_road in
  let t := finish (fail_as_transition wall 1%N 0%N "customer unreachable") on_the_road in
  RiderLocation.currentOrder <$> locations f.2 !! 1%N
    ≠ RiderLocation.currentOrder <$> locations t.2 !! 1%N
  ∧ emitted f.2 ≠ emitted t.2.
Proof. cbv zeta. split; vm_compute; discriminate. Qed.

(** ** Rider positions *)

Lemma upsert_position_positioned w userId la lo isOnline :
  RiderLocation.upsert_position userId {| latitude := la; longitude := lo |}
    (match isOnline with Some b => b | None => true end) (locations w)
  = (positioned w userId la lo isOnline,
     <[userId := positioned w userId la lo isOnline]> (locations w)).
Proof.
  unfold RiderLocation.upsert_position, positioned, RiderLocation.set_position.
  destruct (locations w !! userId); reflexivity.
Qed.

Lemma updateLocation_run clock w userId la lo isOnline :
  finish (updateLocation clock userId la lo isOnline) w =
    ({| code := 200; message := "Location updated successfully";
        body := LocationBody (positioned w userId la lo isOnline) |},
     let stored := set_locations
       (λ _, <[userId := positioned w userId la lo isOnline]> (locations w)) w in
     match RiderLocation.currentOrder (positioned w userId la lo isOnline) with
     | Some order =>
       publish order
         (LocationUpdate order {| latitude := la; longitude := lo |} (clock (ticks w)))
         (tick stored)
     | None => stored
     end).
Proof.
  unfold finish, updateLocation, db, mbind, Handler_bind.
  rewrite (upsert_position_positioned w). simpl.
  destruct (locations w !! userId) as [l|];
    [destruct (RiderLocation.currentOrder l)|]; reflexivity.
Qed.

(** C8.  [updateLocation] answers 200 with the rider's record, which it
    writes under the rider's identifier: position and online flag from the
    request, [currentOrder] as it was, or unset in a record that did not
    exist.  Orders and users are untouched.  One location event goes to the
    room of the current order when there is one, and none otherwise; the
    answer and the stored record are the same whoever is subscribed. *)
Theorem updateLocation_upserts (clock : nat → Z) (w : World) (userId : ObjectId)
    (la lo : jsval) (isOnline : option bool) :
  let record := positioned w userId la lo isOnline in
  let event order :=
    LocationUpdate order {| latitude := la; longitude := lo |} (clock (ticks w)) in
  let out := finish (updateLocation clock userId la lo isOnline) w in
  out.1 = {| code := 200; message := "Location updated successfully";
             body := LocationBody record |}
  ∧ locations out.2 = <[userId := record]> (locations w)
  ∧ (locations w !! userId = None → RiderLocation.currentOrder record = None)
  ∧ orders out.2 = orders w
  ∧ users out.2 = users w
  ∧ emitted out.2 = (emitted w ++
      match RiderLocation.currentOrder record with
      | Some order => [(order, event order)]
      | None => []
      end)%list
  ∧ delivered out.2 = (delivered w ++
      match RiderLocation.currentOrder record with
      | Some order => (λ s, (s, event order)) <$> default [] (rooms w !! order)
      | None => []
      end)%list
  ∧ ∀ subscribers,
      let out' := finish (updateLocation clock userId la lo isOnline)
                    (set_rooms subscribers w) in
      out'.1 = out.1 ∧ locations out'.2 = locations out.2.
Proof.
  cbv zeta. rewrite updateLocation_run.
  assert (Hsame : ∀ subscribers,
    positioned (set_rooms subscribers w) userId la lo isOnline
    = positioned w userId la lo isOnline) by reflexivity.
  split; [reflexivity|].
  split; [destruct (RiderLocation.currentOrder (positioned w userId la lo isOnline));
          reflexivity|].
  split; [intros Hnone; unfold positioned; rewrite Hnone; reflexivity|].
  repeat split;
    try (destruct (RiderLocation.currentOrder (positioned w userId la lo isOnline));
         simpl; rewrite ?app_nil_r; reflexivity).
  - rewrite updateLocation_run, Hsame. reflexivity.
  - rewrite updateLocation_run, Hsame.
    destruct (RiderLocation.currentOrder (positioned w userId la lo isOnline));
      reflexivity.
Qed.

(** C10.  A location update that leaves [isOnline] out puts an offline rider
    online: the flag of the stored record is true, not the value it had, and
    the record still points at the same order. *)
Theorem updateLocation_default_online (clock : nat → Z) (w : World)
    (userId : ObjectId) (la lo : jsval) (l : RiderLocation.t) :
  locations w !! userId = Some l →
  RiderLocation.isOnline l = false →
  ∃ l', locations (finish (updateLocation clock userId la lo None) w).2 !! userId
          = Some l'
      ∧ RiderLocation.isOnline l' = true
      ∧ RiderLocation.isOnline l' ≠ RiderLocation.isOnline l
      ∧ RiderLocation.currentOrder l' = RiderLocation.currentOrder l.
Proof.
  intros Hl Hoff. rewrite updateLocation_run.
  exists (positioned w userId la lo None).
  split; [|split; [reflexivity|split]].
  - destruct (RiderLocation.currentOrder (positioned w userId la lo None));
      simpl; apply lookup_insert_eq.
  - rewrite Hoff. discriminate.
  - unfold positioned. rewrite Hl. reflexivity.
Qed.

(** Rider 1 of the depot is offline and sends a position without the flag. *)
Lemma updateLocation_default_online_witness :
  RiderLocation.isOnline <$> locations depot !! 1%N = Some false
  ∧ ∃ l', locations (finish (updateLocation wall 1%N (JNum (247 # 10))
                               (JNum (467 # 10)) None) depot).2 !! 1%N = Some l'
        ∧ RiderLocation.isOnline l' = true.
Proof.
  split; [vm_compute; reflexivity|].
  destruct (locations depot !! 1%N) as [l|] eqn:Hl; [|vm_compute in Hl; discriminate].
  assert (Hoff : RiderLocation.isOnline l = false)
    by (vm_compute in Hl; injection Hl as <-; reflexivity).
  destruct (updateLocation_default_online wall depot 1%N (JNum (247 # 10))
              (JNum (467 # 10)) l Hl Hoff) as (l' & Hl' & Hon & _).
  exists l'. split; assumption.
Defined.

(** ** Assignment requests in flight *)

(** Resumed five times with nothing in between, the cut handler is
    [assign]. *)
Lemma assign_alone_is_assign clock w orderId riderId :
  assign_alone clock orderId riderId 5 w =
    (Answered (finish (assign clock orderId riderId) w).1,
     (finish (assign clock orderId riderId) w).2).
Proof.
  unfold assign_alone. run_handler.
  destruct (Order.findById orderId (orders w)) as [o|]; simpl; [|reflexivity].
  destruct (User.findOne_active_rider riderId (users w)) as [u|]; simpl; [|reflexivity].
  destruct (Order.findOne_active riderId (orders w)) as [a|] eqn:Ha; simpl.
  - reflexivity.
  - reflexivity.
Qed.

Lemma holds_active_check w r i :
  match orders w !! i with
  | Some o => bool_decide (Order.active_of r o)
  | None => false
  end = true →
  holds_active w r i.
Proof.
  destruct (orders w !! i) as [o|] eqn:Ho; [|discriminate].
  intros H. apply bool_decide_eq_true in H. exists o. auto.
Qed.

(** One after the other, a second assignment to the same rider is refused. *)
Lemma assign_in_turn_conflicts clock w o1 o2 r :
  code (finish (assign clock o1 r) w).1 = 200 →
  is_Some (orders w !! o2) →
  let w' := (finish (assign clock o1 r) w).2 in
  finish (assign clock o2 r) w' =
    ({| code := 400; message := "Rider already has an active order"; body := NoBody |}, w').
Proof.
  intros Hok [o Ho]. cbv zeta.
  destruct (orders w !! o1) as [ord|] eqn:H1;
    [|rewrite assign_order_missing in Hok by assumption; discriminate].
  destruct (User.findOne_active_rider r (users w)) as [u|] eqn:Hu.
  2: { rewrite assign_rider_missing in Hok; [discriminate|eauto|].
       rewrite active_rider_findOne, Hu. intros [? ?]; discriminate. }
  assert (Hr : active_rider w r) by (rewrite active_rider_findOne, Hu; eauto).
  destruct (Order.findOne_active r (orders w)) as [a|] eqn:Ha.
  { rewrite assign_rider_busy in Hok; [discriminate|eauto|assumption|].
    rewrite idle_findOne_active, Ha. discriminate. }
  apply idle_findOne_active in Ha.
  rewrite (assign_success clock w o1 r ord) by assumption. simpl.
  apply assign_rider_busy.
  - simpl. destruct (decide (o1 = o2)) as [->|Hne].
    + rewrite lookup_insert_eq. eauto.
    + rewrite lookup_insert_ne by assumption. eauto.
  - exact Hr.
  - intros Hidle. apply (Hidle o1). exists (assigned clock w r ord). simpl.
    rewrite lookup_insert_eq. split; [reflexivity|]. split; reflexivity.
Qed.

(** C4.  Two assignments to rider 1, of orders 0 and 1, are in flight
    together.  Both pass the check for an active order before either saves:
    both answer 200, and rider 1 ends up with two assigned orders. *)
Theorem assign_race_both_succeed :
  let schedule :=
    [true; true; true; false; false; false; true; true; false; false] in
  let s := race wall 0%N 1%N 1%N 1%N schedule two_orders in
  code <$> answer (req1 s) = Some 200
  ∧ code <$> answer (req2 s) = Some 200
  ∧ holds_active (shared s) 1%N 0%N
  ∧ holds_active (shared s) 1%N 1%N
  ∧ ¬ one_active_per_rider (shared s).
Proof.
  cbv zeta.
  assert (H0 : holds_active (shared (race wall 0%N 1%N 1%N 1%N
            [true; true; true; false; false; false; true; true; false; false]
            two_orders)) 1%N 0%N)
    by (apply holds_active_check; vm_compute; reflexivity).
  assert (H1 : holds_active (shared (race wall 0%N 1%N 1%N 1%N
            [true; true; true; false; false; false; true; true; false; false]
            two_orders)) 1%N 1%N)
    by (apply holds_active_check; vm_compute; reflexivity).
  split; [vm_compute; reflexivity|]. split; [vm_compute; reflexivity|].
  split; [exact H0|]. split; [exact H1|].
  intros Hinv. specialize (Hinv _ _ _ H0 H1). discriminate.
Qed.

(** ** What one request does to the orders *)

Lemma create_run clock w userId d :
  let order := Order.fresh_document userId d
    [ {| Order.e_status := "pending"; Order.timestamp := clock (ticks w);
         Order.notes := Some "Order created"; Order.location := None |} ] in
  finish (create clock userId d) w =
    ({| code := 201; message := "Order created successfully";
        body := OrderBody (fresh (dom (orders w))) order |},
     set_orders (insert (fresh (dom (orders w))) order) (tick w)).
Proof. reflexivity. Qed.

Lemma assign_run clock w orderId riderId :
  finish (assign clock orderId riderId) w =
    match Order.findById orderId (orders w),
          User.findOne_active_rider riderId (users w),
          Order.findOne_active riderId (orders w) with
    | None, _, _ =>
      ({| code := 404; message := "Order not found"; body := NoBody |}, w)
    | Some _, None, _ =>
      ({| code := 404; message := "Rider not found or inactive"; body := NoBody |}, w)
    | Some _, Some _, Some _ =>
      ({| code := 400; message := "Rider already has an active order";
          body := NoBody |}, w)
    | Some o, Some _, None =>
      ({| code := 200; message := "Order assigned successfully";
          body := OrderBody orderId (assigned clock w riderId o) |},
       set_locations (RiderLocation.findOneAndUpdate riderId
                        (RiderLocation.set_currentOrder (Some orderId)))
         (set_orders (insert orderId (assigned clock w riderId o)) (tick w)))
    end.
Proof.
  run_handler.
  destruct (Order.findById orderId (orders w)); simpl; [|reflexivity].
  destruct (User.findOne_active_rider riderId (users w)); simpl; [|reflexivity].
  destruct (Order.findOne_active riderId (orders w)); reflexivity.
Qed.

(** A request leaves the orders alone, or stores one order with one more
    timeline entry, stamped with the clock reading it started from.  The
    stored order is new and has no rider, or keeps its rider, or goes to a
    rider who was idle. *)
Lemma serve_summary clock req w :
  let w' := serve clock req w in
  (ticks w ≤ ticks w')%nat
  ∧ (orders w' = orders w
     ∨ ∃ i o' e,
         orders w' = <[i := o']> (orders w)
         ∧ (ticks w < ticks w')%nat
         ∧ Order.e_status e = Order.status o'
         ∧ Order.timestamp e = clock (ticks w)
         ∧ match orders w !! i with
           | None => Order.timeline o' = [e] ∧ Order.rider o' = None
           | Some o =>
             Order.timeline o' = (Order.timeline o ++ [e])%list
             ∧ ((Order.rider o' = Order.rider o
                 ∧ (reactivates w req = false →
                    Order.active (Order.status o') = true →
                    Order.active (Order.status o) = true))
                ∨ ∃ r, Order.rider o' = Some r ∧ idle w r)
           end).
Proof.
  cbv zeta. unfold serve. destruct req as [u d|o r|u o s n la lo|u o reason|u la lo on];
    unfold handle.
  - rewrite create_run. simpl. split; [lia|]. right.
    eexists _, _, {| Order.e_status := "pending"; Order.timestamp := clock (ticks w);
                     Order.notes := Some "Order created"; Order.location := None |}.
    split; [reflexivity|]. split; [lia|].
    assert (Hfresh : orders w !! fresh (dom (orders w)) = None)
      by (apply not_elem_of_dom, is_fresh).
    rewrite Hfresh. simpl. auto.
  - rewrite assign_run. unfold Order.findById.
    destruct (orders w !! o) as [ord|] eqn:Ho; [|simpl; auto].
    destruct (User.findOne_active_rider r (users w)); [|simpl; auto].
    destruct (Order.findOne_active r (orders w)) eqn:Ha; [simpl; auto|].
    simpl. split; [lia|]. right.
    eexists _, _, {| Order.e_status := "assigned"; Order.timestamp := clock (ticks w);
                     Order.notes := Some "Order assigned to rider";
                     Order.location := None |}.
    split; [reflexivity|]. split; [lia|].
    rewrite Ho. simpl. split; [reflexivity|]. split; [reflexivity|].
    split; [reflexivity|]. right. exists r. split; [reflexivity|].
    apply idle_findOne_active. exact Ha.
  - destruct (Order.findOne_owned o u (orders w)) as [ord|] eqn:Hf.
    + destruct (transition_found clock w u o s n la lo ord Hf)
        as (_ & Ho & _ & _ & _ & Ht & _).
      rewrite Ht, Ho. split; [lia|]. right.
      exists o, (transitioned clock w s n la lo ord),
        (status_entry clock w s n la lo).
      apply findOne_owned_Some in Hf as Hf'. destruct Hf' as [Hl Hr].
      rewrite Hl. unfold transitioned.
      split; [reflexivity|]. split; [lia|].
      destruct (String.eqb s "delivered"); simpl;
        (split; [reflexivity|]; split; [reflexivity|]; split; [reflexivity|];
         left; split; [reflexivity|]; rewrite Hf;
         destruct (Order.active s), (Order.active (Order.status ord));
         simpl; congruence).
    + rewrite transition_not_found by assumption. simpl. auto.
  - destruct (Order.findOne_owned o u (orders w)) as [ord|] eqn:Hf.
    + rewrite (fail_found clock w u o reason ord Hf). simpl.
      split; [lia|]. right.
      eexists _, _, {| Order.e_status := "failed"; Order.timestamp := clock (ticks w);
                       Order.notes := Some ("Delivery failed: " +:+ reason);
                       Order.location := None |}.
      split; [reflexivity|]. split; [lia|].
      apply findOne_owned_Some in Hf as [Hl Hr]. rewrite Hl. simpl.
      split; [reflexivity|]. split; [reflexivity|]. split; [reflexivity|].
      left. split; [reflexivity|]. intros _ Hact. vm_compute in Hact. discriminate.
    + rewrite fail_not_found by assumption. simpl. auto.
  - rewrite updateLocation_run. cbv zeta.
    destruct (RiderLocation.currentOrder (positioned w u la lo on)); simpl;
      (split; [lia|auto]).
Qed.

(** ** One active order per rider *)

Lemma no_orders_one_active w : orders w = ∅ → one_active_per_rider w.
Proof.
  intros He r i j (o & Ho & _). rewrite He, lookup_empty in Ho. discriminate.
Qed.

Lemma holds_active_orders w w' r i :
  orders w' = orders w → holds_active w' r i → holds_active w r i.
Proof. unfold holds_active. intros ->. auto. Qed.

Lemma holds_active_insert w w' i o' r a :
  orders w' = <[i := o']> (orders w) →
  holds_active w' r a →
  (a = i ∧ Order.active_of r o') ∨ (a ≠ i ∧ holds_active w r a).
Proof.
  intros Ho (o & Hl & Ha). rewrite Ho in Hl.
  destruct (decide (i = a)) as [->|Hne].
  - rewrite lookup_insert_eq in Hl. injection Hl as ->. auto.
  - rewrite lookup_insert_ne in Hl by assumption. right. split; [congruence|].
    exists o. auto.
Qed.

(** One request that does not reactivate an order keeps every rider at one
    active order at most. *)
Lemma serve_keeps_one_active clock req w :
  one_active_per_rider w → reactivates w req = false →
  one_active_per_rider (serve clock req w).
Proof.
  intros Hinv Hguard.
  destruct (serve_summary clock req w) as [_ [Hsame|(i & o' & e & Ho & _ & _ & _ & Hcase)]].
  { intros r a b Ha Hb. apply (Hinv r); eapply holds_active_orders; eauto. }
  intros r a b Ha Hb.
  apply (holds_active_insert w _ i o' r a Ho) in Ha.
  apply (holds_active_insert w _ i o' r b Ho) in Hb.
  destruct (orders w !! i) as [o|] eqn:Hi.
  - destruct Hcase as [_ [[Hr Hact]|(r0 & Hr0 & Hidle)]].
    + assert (Hback : ∀ c, (c = i ∧ Order.active_of r o') ∨ (c ≠ i ∧ holds_active w r c) →
                           holds_active w r c).
      { intros c [[-> [Hro Hso]]|[_ Hc]]; [|exact Hc].
        exists o. split; [exact Hi|]. split; [congruence|]. auto. }
      apply (Hinv r); apply Hback; assumption.
    + destruct Ha as [[-> [Hra _]]|[Hna Ha]], Hb as [[-> [Hrb _]]|[Hnb Hb]].
      * reflexivity.
      * exfalso. apply (Hidle b). congruence.
      * exfalso. apply (Hidle a). congruence.
      * exact (Hinv r a b Ha Hb).
  - destruct Hcase as [_ Hnone].
    destruct Ha as [[-> [Hra _]]|[_ Ha]]; [congruence|].
    destruct Hb as [[-> [Hrb _]]|[_ Hb]]; [congruence|].
    exact (Hinv r a b Ha Hb).
Qed.

(** The same for one rider, whatever the other riders hold. *)
Lemma serve_keeps_one_active_quiet clock req w r :
  one_active w r → reactivates w req = false → one_active (serve clock req w) r.
Proof.
  intros Hinv Hguard.
  destruct (serve_summary clock req w) as [_ [Hsame|(i & o' & e & Ho & _ & _ & _ & Hcase)]].
  { intros a b Ha Hb. apply Hinv; eapply holds_active_orders; eauto. }
  intros a b Ha Hb.
  apply (holds_active_insert w _ i o' r a Ho) in Ha.
  apply (holds_active_insert w _ i o' r b Ho) in Hb.
  destruct (orders w !! i) as [o|] eqn:Hi.
  - destruct Hcase as [_ [[Hr Hact]|(r0 & Hr0 & Hidle)]].
    + assert (Hback : ∀ c, (c = i ∧ Order.active_of r o') ∨ (c ≠ i ∧ holds_active w r c) →
                           holds_active w r c).
      { intros c [[-> [Hro Hso]]|[_ Hc]]; [|exact Hc].
        exists o. split; [exact Hi|]. split; [congruence|]. auto. }
      apply Hinv; apply Hback; assumption.
    + destruct Ha as [[-> [Hra _]]|[Hna Ha]], Hb as [[-> [Hrb _]]|[Hnb Hb]].
      * reflexivity.
      * exfalso. apply (Hidle b). congruence.
      * exfalso. apply (Hidle a). congruence.
      * exact (Hinv a b Ha Hb).
  - destruct Hcase as [_ Hnone].
    destruct Ha as [[-> [Hra _]]|[_ Ha]]; [congruence|].
    destruct Hb as [[-> [Hrb _]]|[_ Hb]]; [congruence|].
    exact (Hinv a b Ha Hb).
Qed.

(** What a reactivating request is and stores. *)
Lemma reactivates_inv clock w req :
  reactivates w req = true →
  ∃ u i s n la lo o,
    req = Transition u i s n la lo
    ∧ orders w !! i = Some o
    ∧ Order.rider o = Some u
    ∧ Order.active s = true
    ∧ Order.active (Order.status o) = false
    ∧ ∃ o', orders (serve clock req w) = <[i := o']> (orders w)
          ∧ Order.rider o' = Some u ∧ Order.status o' = s.
Proof.
  destruct req as [u d|o r|u i s n la lo|u o reason|u la lo on]; try discriminate.
  simpl. destruct (Order.findOne_owned i u (orders w)) as [o|] eqn:Hf; [|discriminate].
  intros Hre. apply andb_true_iff in Hre as [Hs Ho]. apply negb_true_iff in Ho.
  destruct (transition_found clock w u i s n la lo o Hf) as (_ & Hst & _).
  apply findOne_owned_Some in Hf as [Hl Hr].
  exists u, i, s, n, la, lo, o. repeat split; try assumption.
  exists (transitioned clock w s n la lo o). split; [exact Hst|].
  unfold transitioned. destruct (String.eqb s "delivered"); simpl; auto.
Qed.

(** One request that does not overload the rider keeps the rider at one
    active order at most. *)
Lemma serve_keeps_one_active_of clock req w r :
  one_active w r → overloads w r req = false → one_active (serve clock req w) r.
Proof.
  intros Hinv Hguard.
  destruct (reactivates w req) eqn:Hre;
    [|apply serve_keeps_one_active_quiet; assumption].
  destruct (reactivates_inv clock w req Hre)
    as (u & i & s & n & la & lo & o & -> & Hl & Hr & Hs & Hno & o' & Hst & Hr' & Hs').
  unfold overloads in Hguard. rewrite Hre in Hguard.
  intros a b Ha Hb.
  apply (holds_active_insert w _ i o' r a Hst) in Ha.
  apply (holds_active_insert w _ i o' r b Hst) in Hb.
  destruct (decide (u = r)) as [->|Hne].
  - rewrite bool_decide_eq_true_2 in Hguard by reflexivity. simpl in Hguard.
    apply bool_decide_eq_false in Hguard.
    assert (Hidle : idle w r).
    { apply idle_findOne_active. apply eq_None_not_Some. exact Hguard. }
    destruct Ha as [[-> _]|[_ Ha]]; [|exfalso; exact (Hidle a Ha)].
    destruct Hb as [[-> _]|[_ Hb]]; [reflexivity|exfalso; exact (Hidle b Hb)].
  - destruct Ha as [[_ [Hra _]]|[_ Ha]]; [congruence|].
    destruct Hb as [[_ [Hrb _]]|[_ Hb]]; [congruence|].
    exact (Hinv a b Ha Hb).
Qed.

(** A request that overloads the rider leaves the rider with two active
    orders. *)
Lemma overload_breaks clock req w r :
  overloads w r req = true → ¬ one_active (serve clock req w) r.
Proof.
  intros Hover Hinv.
  assert (Hre : reactivates w req = true).
  { destruct req; try discriminate. simpl in Hover.
    apply andb_true_iff in Hover as [Hover _].
    apply andb_true_iff in Hover as [_ Hre]. exact Hre. }
  destruct (reactivates_inv clock w req Hre)
    as (u & i & s & n & la & lo & o & -> & Hl & Hr & Hs & Hno & o' & Hst & Hr' & Hs').
  unfold overloads in Hover. rewrite Hre in Hover.
  apply andb_true_iff in Hover as [Hover Hsome].
  apply andb_true_iff in Hover as [Hu _].
  apply bool_decide_eq_true in Hu. subst u.
  apply bool_decide_eq_true, findOne_active_Some in Hsome as (j & oj & Hj & Haj).
  assert (Hne : i ≠ j).
  { intros ->. rewrite Hl in Hj. injection Hj as <-. destruct Haj as [_ Haj].
    congruence. }
  apply Hne. apply Hinv.
  - exists o'. rewrite Hst, lookup_insert_eq. split; [reflexivity|].
    split; [exact Hr'|]. rewrite Hs'. exact Hs.
  - exists oj. rewrite Hst, lookup_insert_ne by assumption. auto.
Qed.

(** C2, amended.  For every rider: starting from a world where the rider has
    at most one order that is assigned, picked up or in transit, whatever
    the other riders hold, any sequence of create, assign, status-update,
    fail and location requests keeps it so, as long as no status update of
    the rider moves one of their orders from another status into one of
    these three while the rider holds an active order. *)
Theorem one_active_order_kept (clock : nat → Z) (reqs : list Request) (w : World)
    (r : ObjectId) :
  one_active w r →
  never_overloaded clock r reqs w = true →
  one_active (serve_all clock reqs w) r.
Proof.
  revert w. induction reqs as [|req rest IH]; intros w Hinv Hguard.
  - exact Hinv.
  - simpl in Hguard. apply andb_true_iff in Hguard as [Hreq Hrest].
    apply negb_true_iff in Hreq. simpl. apply IH; [|exact Hrest].
    apply serve_keeps_one_active_of; assumption.
Qed.

(** The busy day: rider 1 reactivates the delivered order 0 while holding
    nothing, keeps it as their one active order, and the guard is met. *)
Lemma one_active_order_kept_witness :
  never_overloaded wall 1%N busy_day depot = true
  ∧ holds_active (serve_all wall busy_day depot) 1%N 0%N
  ∧ one_active (serve_all wall busy_day depot) 1%N.
Proof.
  assert (Hguard : never_overloaded wall 1%N busy_day depot = true)
    by (vm_compute; reflexivity).
  split; [exact Hguard|].
  split; [apply holds_active_check; vm_compute; reflexivity|].
  apply (one_active_order_kept wall busy_day depot 1%N).
  - intros i j (o & Ho & _). vm_compute in Ho. discriminate.
  - exact Hguard.
Defined.

(** C2 as stated fails: the depot starts without orders, and after rider 1
    has delivered order 0, taken order 1 and then reported order 0 in
    transit, both orders are active for rider 1. *)
Lemma one_active_order_broken :
  one_active_per_rider depot
  ∧ holds_active (serve_all wall second_thoughts depot) 1%N 0%N
  ∧ holds_active (serve_all wall second_thoughts depot) 1%N 1%N
  ∧ ¬ one_active_per_rider (serve_all wall second_thoughts depot).
Proof.
  assert (H0 : holds_active (serve_all wall second_thoughts depot) 1%N 0%N)
    by (apply holds_active_check; vm_compute; reflexivity).
  assert (H1 : holds_active (serve_all wall second_thoughts depot) 1%N 1%N)
    by (apply holds_active_check; vm_compute; reflexivity).
  split; [apply no_orders_one_active; reflexivity|].
  split; [exact H0|]. split; [exact H1|].
  intros Hinv. specialize (Hinv _ _ _ H0 H1). discriminate.
Qed.

(** ** Timelines *)

Lemma timelines_traced_start clock w : orders w = ∅ → timelines_traced clock w.
Proof. intros He i o Ho. rewrite He, lookup_empty in Ho. discriminate. Qed.

Lemma serve_keeps_timelines_traced clock req w :
  timelines_traced clock w → timelines_traced clock (serve clock req w).
Proof.
  intros Hinv.
  destruct (serve_summary clock req w)
    as [Hticks [Hsame|(i & o' & e & Ho & Hlt & Hst & Hts & Hcase)]].
  - intros a o Ha. rewrite Hsame in Ha.
    destruct (Hinv a o Ha) as (Hs & reads & Hr & Hsorted & Hb).
    split; [exact Hs|]. exists reads. split; [exact Hr|]. split; [exact Hsorted|].
    eapply Forall_impl; [exact Hb|]. simpl. intros n Hn. lia.
  - intros a o Ha. rewrite Ho in Ha. destruct (decide (i = a)) as [->|Hne].
    + rewrite lookup_insert_eq in Ha. injection Ha as <-.
      assert (Hpast : ∃ tl reads, Order.timeline o' = (tl ++ [e])%list
                ∧ stamped_by clock reads tl
                ∧ StronglySorted lt reads
                ∧ Forall (λ n, (n < ticks w)%nat) reads).
      { destruct (orders w !! a) as [o|] eqn:Hl.
        - destruct Hcase as [Htl _].
          destruct (Hinv a o Hl) as (_ & reads & Hr & Hsorted & Hb).
          exists (Order.timeline o), reads. auto.
        - destruct Hcase as [Htl _]. exists [], []. split; [exact Htl|].
          split; [reflexivity|]. split; constructor. }
      destruct Hpast as (tl & reads & Htl & Hr & Hsorted & Hb).
      unfold status_recorded. rewrite Htl, last_snoc. split.
      * simpl. rewrite Hst. reflexivity.
      * exists (reads ++ [ticks w])%list. split; [|split].
        -- unfold stamped_by in *. rewrite !fmap_app, Hr. simpl. rewrite Hts.
           reflexivity.
        -- apply StronglySorted_app. split; [|split].
           ++ intros x1 x2 H1 H2. apply list_elem_of_singleton in H2 as ->.
              rewrite Forall_forall in Hb. apply Hb. exact H1.
           ++ exact Hsorted.
           ++ repeat constructor.
        -- apply Forall_app. split.
           ++ eapply Forall_impl; [exact Hb|]. simpl. intros n Hn. lia.
           ++ constructor; [exact Hlt|constructor].
    + rewrite lookup_insert_ne in Ha by assumption.
      destruct (Hinv a o Ha) as (Hs & reads & Hr & Hsorted & Hb).
      split; [exact Hs|]. exists reads. split; [exact Hr|]. split; [exact Hsorted|].
      eapply Forall_impl; [exact Hb|]. simpl. intros n Hn. lia.
Qed.

Lemma serve_all_keeps_timelines_traced clock reqs w :
  timelines_traced clock w → timelines_traced clock (serve_all clock reqs w).
Proof.
  revert w. induction reqs as [|req rest IH]; intros w Hinv; [exact Hinv|].
  simpl. apply IH. apply serve_keeps_timelines_traced. exact Hinv.
Qed.

(** A request only ever appends to the timeline of a stored order. *)
Lemma serve_appends clock req w i o :
  orders w !! i = Some o →
  ∃ o', orders (serve clock req w) !! i = Some o'
      ∧ Order.timeline o `prefix_of` Order.timeline o'.
Proof.
  intros Hl.
  destruct (serve_summary clock req w)
    as [_ [Hsame|(j & o' & e & Ho & _ & _ & _ & Hcase)]].
  - exists o. rewrite Hsame. split; [exact Hl|reflexivity].
  - rewrite Ho. destruct (decide (j = i)) as [->|Hne].
    + rewrite Hl in Hcase. destruct Hcase as [Htl _].
      exists o'. rewrite lookup_insert_eq. split; [reflexivity|].
      rewrite Htl. apply prefix_app_r. reflexivity.
    + exists o. rewrite lookup_insert_ne by assumption. split; [exact Hl|reflexivity].
Qed.

Section MonotoneClock.

Variable clock : nat → Z.

(** The server clock never runs backwards. *)
Hypothesis clock_monotone : ∀ m n, (m ≤ n)%nat → (clock m ≤ clock n)%Z.

(** Successive readings of such a clock are chronological. *)
Lemma stamped_chronological reads tl :
  stamped_by clock reads tl → StronglySorted lt reads → chronological tl.
Proof.
  unfold stamped_by, chronological. intros ->. apply StronglySorted_fmap.
  intros m n Hmn. apply clock_monotone. lia.
Qed.

End MonotoneClock.

(** C7, amended.  Starting without orders, after any sequence of requests
    every order's timeline ends in an entry with the order's current status,
    and its timestamps are readings of the server clock, each taken later
    than the one before; so they are non-decreasing whenever the clock does
    not run backwards.  One more request keeps every stored order and
    extends its timeline at the end only. *)
Theorem timelines_append_only_chronological (clock : nat → Z) (w0 : World)
    (reqs : list Request) (req : Request) :
  orders w0 = ∅ →
  (∀ i o, orders (serve_all clock reqs w0) !! i = Some o →
     status_recorded o
     ∧ (∃ reads, stamped_by clock reads (Order.timeline o) ∧ StronglySorted lt reads)
     ∧ ((∀ m n, (m ≤ n)%nat → (clock m ≤ clock n)%Z) →
        chronological (Order.timeline o)))
  ∧ (∀ i o, orders (serve_all clock reqs w0) !! i = Some o →
     ∃ o', orders (serve clock req (serve_all clock reqs w0)) !! i = Some o'
         ∧ Order.timeline o `prefix_of` Order.timeline o').
Proof.
  intros Hstart. split.
  - intros i o Ho.
    destruct (serve_all_keeps_timelines_traced clock reqs w0
                (timelines_traced_start clock w0 Hstart) i o Ho)
      as (Hs & reads & Hr & Hsorted & _).
    split; [exact Hs|]. split; [eauto|].
    intros Hmono. apply (stamped_chronological clock Hmono reads); assumption.
  - intros i o Ho. apply serve_appends. exact Ho.
Qed.

Lemma wall_monotone m n : (m ≤ n)%nat → (wall m ≤ wall n)%Z.
Proof. unfold wall. lia. Qed.

(** The working day at the depot, and one more status update after it. *)
Lemma timelines_append_only_chronological_witness :
  orders depot = ∅
  ∧ (∀ i o, orders (serve_all wall working_day depot) !! i = Some o →
     chronological (Order.timeline o) ∧ status_recorded o)
  ∧ (∀ i o, orders (serve_all wall working_day depot) !! i = Some o →
     ∃ o', orders (serve wall (Fail 1%N 0%N "late")
                     (serve_all wall working_day depot)) !! i = Some o'
         ∧ Order.timeline o `prefix_of` Order.timeline o').
Proof.
  split; [reflexivity|].
  destruct (timelines_append_only_chronological wall depot working_day
              (Fail 1%N 0%N "late") eq_refl) as [Hsound Happend].
  split; [|exact Happend].
  intros i o Ho. destruct (Hsound i o Ho) as (Hs & _ & Hchrono).
  split; [|exact Hs]. apply Hchrono. exact wall_monotone.
Defined.

(** C7 as stated fails when the server clock is set back: with a clock that
    loses a millisecond between readings, the order created and then assigned
    at the depot has the timestamps 1000 and 999, in this order, and its
    timeline is not chronological. *)
Lemma timeline_backwards_clock :
  ∃ o, orders (serve_all backwards [Create 9%N parcel; Assign 0%N 1%N] depot) !! 0%N
       = Some o
     ∧ Order.timestamp <$> Order.timeline o = [1000; 999]%Z
     ∧ status_recorded o
     ∧ ¬ chronological (Order.timeline o).
Proof.
  destruct (orders (serve_all backwards [Create 9%N parcel; Assign 0%N 1%N] depot)
              !! 0%N) as [o|] eqn:Ho; [|vm_compute in Ho; discriminate].
  exists o. split; [reflexivity|].
  assert (Hts : Order.timestamp <$> Order.timeline o = [1000; 999]%Z)
    by (vm_compute in Ho; injection Ho as <-; reflexivity).
  split; [exact Hts|]. split.
  - vm_compute in Ho. injection Ho as <-. reflexivity.
  - unfold chronological. rewrite Hts. intros Hsorted.
    apply StronglySorted_inv in Hsorted as [_ Hall].
    apply Forall_cons in Hall as [Hle _]. lia.
Qed.

(** * The routes around the core *)

Local Open Scope nat_scope.

(** ** Going online and offline *)

Lemma toggleOnline_missing userId w :
  locations w !! userId = None →
  toggleOnline userId w =
    (inl {| code := 404; message := "Location record not found"; body := NoBody |}, w).
Proof.
  intros H. unfold toggleOnline, mbind, Handler_bind, query, orElse, respond.
  rewrite H. reflexivity.
Qed.

Lemma toggleOnline_found userId w l :
  locations w !! userId = Some l →
  toggleOnline userId w =
    (inr ("Status updated to " +:+
            (if negb (RiderLocation.isOnline l) then "online" else "offline"),
          negb (RiderLocation.isOnline l)),
     set_locations (insert userId (flip_isOnline l)) w).
Proof.
  intros H. unfold toggleOnline, mbind, Handler_bind, query, orElse, respond, update.
  rewrite H. reflexivity.
Qed.

Lemma flip_isOnline_twice l : flip_isOnline (flip_isOnline l) = l.
Proof. destruct l as [c [] o]; reflexivity. Qed.

Lemma flip_isActive_twice u : flip_isActive (flip_isActive u) = u.
Proof. destruct u as [r []]; reflexivity. Qed.

(** X1.  Toggling the online flag twice gives back the world as it was:
    the second call undoes the first, and where the rider has no record both
    calls answer 404 and change nothing.  With a record, the two calls report
    opposite flags. *)
Theorem toggleOnline_twice (userId : ObjectId) (w : World) :
  (toggleOnline userId (toggleOnline userId w).2).2 = w
  ∧ match locations w !! userId with
    | Some l =>
      snd <$> value (toggleOnline userId w).1 = Some (negb (RiderLocation.isOnline l))
      ∧ snd <$> value (toggleOnline userId (toggleOnline userId w).2).1
        = Some (RiderLocation.isOnline l)
    | None =>
      code <$> refusal (toggleOnline userId w).1 = Some 404
    end.
Proof.
  destruct (locations w !! userId) as [l|] eqn:Hl.
  - rewrite (toggleOnline_found userId w l Hl). simpl.
    rewrite (toggleOnline_found userId _ (flip_isOnline l))
      by (simpl; apply lookup_insert_eq).
    simpl. rewrite negb_involutive. split; [|split; reflexivity].
    destruct w; unfold set_locations; simpl in *. f_equal.
    rewrite insert_insert_eq, flip_isOnline_twice. apply insert_id. exact Hl.
  - rewrite (toggleOnline_missing userId w Hl). simpl.
    rewrite (toggleOnline_missing userId w Hl). auto.
Qed.

(** X2.  A rider who has sent a position can always toggle: right after a
    location update the toggle is never refused, reports the opposite of the
    flag the update stored (offline, when the update left the flag out), and
    leaves position and current order of the record as the update wrote
    them. *)
Theorem toggleOnline_after_updateLocation (clock : nat → Z) (w : World)
    (userId : ObjectId) (la lo : jsval) (isOnline : option bool) :
  let w1 := (finish (updateLocation clock userId la lo isOnline) w).2 in
  let flag := match isOnline with Some b => b | None => true end in
  snd <$> value (toggleOnline userId w1).1 = Some (negb flag)
  ∧ locations (toggleOnline userId w1).2 !! userId =
      Some {| RiderLocation.location := {| latitude := la; longitude := lo |};
              RiderLocation.isOnline := negb flag;
              RiderLocation.currentOrder :=
                RiderLocation.currentOrder (positioned w userId la lo isOnline) |}.
Proof.
  cbv zeta. rewrite updateLocation_run.
  set (w1 := (_, _).2).
  assert (Hl : locations w1 !! userId = Some (positioned w userId la lo isOnline)).
  { subst w1. cbv zeta.
    destruct (RiderLocation.currentOrder (positioned w userId la lo isOnline));
      simpl; apply lookup_insert_eq. }
  rewrite (toggleOnline_found userId w1 _ Hl). simpl.
  split; [reflexivity|]. rewrite lookup_insert_eq. reflexivity.
Qed.

(** ** Blocking and unblocking users *)

Lemma toggleStatus_missing userId w :
  users w !! userId = None →
  toggleStatus userId w =
    (inl {| code := 404; message := "User not found"; body := NoBody |}, w).
Proof.
  intros H. unfold toggleStatus, mbind, Handler_bind, query, orElse, respond.
  rewrite H. reflexivity.
Qed.

Lemma toggleStatus_found userId w u :
  users w !! userId = Some u →
  toggleStatus userId w =
    (inr ("User " +:+ (if negb (User.isActive u) then "activated" else "deactivated")
            +:+ " successfully",
          (userId, negb (User.isActive u))),
     set_users (insert userId (flip_isActive u)) w).
Proof.
  intros H. unfold toggleStatus, mbind, Handler_bind, query, orElse, respond, update.
  rewrite H. reflexivity.
Qed.

(** X3.  Blocking and unblocking cancel out: two calls of toggle-status on
    the same user give back the world as it was (also where the user does not
    exist and both calls answer 404), and on an existing user the first
    reports the opposite of the stored flag and the second the stored flag. *)
Theorem toggleStatus_twice (userId : ObjectId) (w : World) :
  (toggleStatus userId (toggleStatus userId w).2).2 = w
  ∧ match users w !! userId with
    | Some u =>
      snd <$> value (toggleStatus userId w).1 = Some (userId, negb (User.isActive u))
      ∧ snd <$> value (toggleStatus userId (toggleStatus userId w).2).1
        = Some (userId, User.isActive u)
    | None => code <$> refusal (toggleStatus userId w).1 = Some 404
    end.
Proof.
  destruct (users w !! userId) as [u|] eqn:Hu.
  - rewrite (toggleStatus_found userId w u Hu). simpl.
    rewrite (toggleStatus_found userId _ (flip_isActive u))
      by (simpl; apply lookup_insert_eq).
    simpl. rewrite negb_involutive. split; [|split; reflexivity].
    destruct w; unfold set_users; simpl in *. f_equal.
    rewrite insert_insert_eq, flip_isActive_twice. apply insert_id. exact Hu.
  - rewrite (toggleStatus_missing userId w Hu). simpl.
    rewrite (toggleStatus_missing userId w Hu). auto.
Qed.

(** X4.  A blocked rider cannot be given orders, and the block releases
    nothing.  After an active rider is blocked, every assignment to that
    rider is answered 404, "Rider not found or inactive" for an existing
    order, and changes nothing; the block itself leaves every order and
    location record as it was, so an order the rider carries stays theirs
    and active, and the admin's rider list shows [hasActiveOrder] as
    before. *)
Theorem blocked_rider_not_assignable (clock : nat → Z) (w : World)
    (riderId : ObjectId) (u : User.t) :
  users w !! riderId = Some u →
  User.isActive u = true →
  let w' := (toggleStatus riderId w).2 in
  orders w' = orders w
  ∧ locations w' = locations w
  ∧ hasActiveOrder (riderStatus riderId w') = hasActiveOrder (riderStatus riderId w)
  ∧ ∀ orderId,
      finish (assign clock orderId riderId) w'
      = ({| code := 404;
            message := if orders w !! orderId is Some _
                       then "Rider not found or inactive"
                       else "Order not found";
            body := NoBody |}, w').
Proof.
  intros Hu Hact. cbv zeta. rewrite (toggleStatus_found riderId w u Hu). simpl.
  split; [reflexivity|]. split; [reflexivity|]. split; [reflexivity|].
  intros orderId.
  assert (Hr : ¬ active_rider (set_users (insert riderId (flip_isActive u)) w) riderId).
  { intros (u' & Hu' & _ & Ha). simpl in Hu'. rewrite lookup_insert_eq in Hu'.
    injection Hu' as <-. simpl in Ha. rewrite Hact in Ha. discriminate. }
  destruct (orders w !! orderId) as [o|] eqn:Ho.
  - apply assign_rider_missing; [simpl; rewrite Ho; eauto | exact Hr].
  - apply assign_order_missing. simpl. exact Ho.
Qed.

(** Rider 1 of the depot is blocked while order 0 is on the road: order 1
    can no longer be assigned to them, and order 0 is still theirs. *)
Lemma blocked_rider_not_assignable_witness :
  User.isActive <$> users on_the_road !! 1%N = Some true
  ∧ code (finish (assign wall 1%N 1%N) (toggleStatus 1%N on_the_road).2).1 = 404
  ∧ hasActiveOrder (riderStatus 1%N (toggleStatus 1%N on_the_road).2) = true.
Proof.
  split; [vm_compute; reflexivity|].
  destruct (users on_the_road !! 1%N) as [u|] eqn:Hu; [|vm_compute in Hu; discriminate].
  assert (Hact : User.isActive u = true)
    by (vm_compute in Hu; injection Hu as <-; reflexivity).
  destruct (blocked_rider_not_assignable wall on_the_road 1%N u Hu Hact)
    as (_ & _ & Hflag & Hassign).
  split.
  - rewrite Hassign. reflexivity.
  - rewrite Hflag. vm_compute. reflexivity.
Defined.

(** ** Viewing an order *)

Lemma canView_may_view w caller o :
  canView caller (Order.business o) (populate (Order.rider o) (users w)) = true
  ↔ may_view w caller o.
Proof.
  unfold canView, may_view, populate.
  destruct (Order.rider o) as [r|]; [destruct (users w !! r) as [u|] eqn:Hr|];
    rewrite !orb_true_iff, ?bool_decide_eq_true, String.eqb_eq.
  - split.
    + intros [[H|H]|H]; auto. subst r. right. left. rewrite Hr. eauto.
    + intros [H|[[H _]|H]]; auto. injection H as H. auto.
  - split.
    + intros [[H|H]|H]; auto. discriminate.
    + intros [H|[[H [x Hu]]|H]]; auto. injection H as H. subst r.
      rewrite Hr in Hu. discriminate.
  - split.
    + intros [[H|H]|H]; auto. discriminate.
    + intros [H|[[H _]|H]]; auto. discriminate.
Qed.

Lemma getOrder_run caller orderId w :
  finish (getOrder caller orderId) w =
    (match orders w !! orderId with
     | None => {| code := 404; message := "Order not found"; body := NoBody |}
     | Some o =>
       match users w !! Order.business o with
       | None => {| code := 500; message := "Server error"; body := NoBody |}
       | Some _ =>
         if canView caller (Order.business o) (populate (Order.rider o) (users w))
         then {| code := 200; message := "";
                 body := OrderBody orderId
                           (with_rider (populate (Order.rider o) (users w)) o) |}
         else {| code := 403; message := "Access denied"; body := NoBody |}
       end
     end, w).
Proof.
  unfold finish, getOrder, mbind, Handler_bind, query, orElse, respond, mret,
    Handler_ret, Order.findById. simpl.
  destruct (orders w !! orderId) as [o|]; simpl; [|reflexivity].
  destruct (users w !! Order.business o); simpl; [|reflexivity].
  destruct (canView _ _ _); reflexivity.
Qed.

(** X5.  GET /:orderId never changes anything, and answers 404 when the
    order does not exist, 500 when the order's business account does not
    exist, 200 when the caller is the order's business, its rider (with an
    existing account) or an administrator, and 403 in every other case.  The
    200 answer carries the order as populated: with its rider when that
    account exists, and with a null rider when the order has none or the
    account is gone. *)
Theorem getOrder_access (caller : Caller) (orderId : ObjectId) (w : World) :
  (finish (getOrder caller orderId) w).2 = w
  ∧ match orders w !! orderId with
    | None => code (finish (getOrder caller orderId) w).1 = 404
    | Some o =>
      match users w !! Order.business o with
      | None => code (finish (getOrder caller orderId) w).1 = 500
      | Some _ =>
        (may_view w caller o →
           (finish (getOrder caller orderId) w).1
           = {| code := 200; message := "";
                body := OrderBody orderId
                          (with_rider
                             match Order.rider o with
                             | Some r => if users w !! r is Some _ then Some r else None
                             | None => None
                             end o) |})
        ∧ (¬ may_view w caller o →
           (finish (getOrder caller orderId) w).1
           = {| code := 403; message := "Access denied"; body := NoBody |})
      end
    end.
Proof.
  rewrite getOrder_run. simpl. split; [reflexivity|].
  destruct (orders w !! orderId) as [o|]; [|reflexivity].
  destruct (users w !! Order.business o); [|reflexivity].
  rewrite <- canView_may_view.
  destruct (canView _ _ _); split; intros H; try reflexivity; try congruence.
Qed.

(** X6.  An assignment moves the rider's view of the order: after a
    successful assign of an order whose business account exists, a caller
    sees the order exactly when they are the business, the newly assigned
    rider or an administrator; whoever held the order before is answered
    403. *)
Theorem assign_moves_access (clock : nat → Z) (w : World) (orderId riderId : ObjectId)
    (o : Order.t) (caller : Caller) :
  orders w !! orderId = Some o →
  is_Some (users w !! Order.business o) →
  active_rider w riderId →
  idle w riderId →
  let w' := (finish (assign clock orderId riderId) w).2 in
  (code (finish (getOrder caller orderId) w').1 = 200
   ↔ Order.business o = caller_id caller
     ∨ riderId = caller_id caller
     ∨ caller_role caller = "admin")
  ∧ (code (finish (getOrder caller orderId) w').1 = 200
     ∨ code (finish (getOrder caller orderId) w').1 = 403).
Proof.
  intros Ho [b Hb] Hr Hi. cbv zeta.
  rewrite (assign_success clock w orderId riderId o) by assumption.
  rewrite getOrder_run. simpl. rewrite lookup_insert_eq. simpl. rewrite Hb.
  pose proof (canView_may_view
    (set_locations (RiderLocation.findOneAndUpdate riderId
                      (RiderLocation.set_currentOrder (Some orderId)))
       (set_orders (insert orderId (assigned clock w riderId o)) (tick w)))
    caller (assigned clock w riderId o)) as Hcv.
  simpl in Hcv. unfold may_view in Hcv. simpl in Hcv.
  destruct (canView _ _ _); simpl; split; auto.
  - split; [intros _|reflexivity].
    destruct (proj1 Hcv eq_refl) as [H|[[[= ->] _]|H]]; auto.
  - split; [discriminate|]. intros H. exfalso.
    assert (Hfalse : false = true); [|discriminate].
    apply Hcv. destruct H as [H|[<-|H]]; auto.
    right. left. split; [reflexivity|].
    destruct Hr as (ur & Hur & _). eauto.
Qed.

(** Order 0, delivered by rider 1, is reassigned to rider 2: rider 2 may see
    it, rider 1 no longer. *)
Lemma assign_moves_access_witness :
  code (finish (getOrder {| caller_id := 1%N; caller_role := "rider" |} 0%N)
          after_delivery).1 = 200
  ∧ code (finish (getOrder {| caller_id := 2%N; caller_role := "rider" |} 0%N)
            (finish (assign wall 0%N 2%N) after_delivery).2).1 = 200
  ∧ code (finish (getOrder {| caller_id := 1%N; caller_role := "rider" |} 0%N)
            (finish (assign wall 0%N 2%N) after_delivery).2).1 = 403.
Proof.
  split; [vm_compute; reflexivity|].
  destruct (orders after_delivery !! 0%N) as [o|] eqn:Ho;
    [|vm_compute in Ho; discriminate].
  assert (Hord : Order.business o = 9%N)
    by (vm_compute in Ho; injection Ho as <-; reflexivity).
  assert (Hb : is_Some (users after_delivery !! Order.business o))
    by (rewrite Hord; vm_compute; eauto).
  assert (Hr : active_rider after_delivery 2%N)
    by (apply active_rider_findOne; vm_compute; eauto).
  assert (Hi : idle after_delivery 2%N)
    by (apply idle_findOne_active; vm_compute; reflexivity).
  split.
  - apply (assign_moves_access wall after_delivery 0%N 2%N o
             {| caller_id := 2%N; caller_role := "rider" |} Ho Hb Hr Hi).
    simpl. auto.
  - destruct (assign_moves_access wall after_delivery 0%N 2%N o
                {| caller_id := 1%N; caller_role := "rider" |} Ho Hb Hr Hi)
      as [Hiff [H200|H403]]; [|exact H403].
    exfalso. apply Hiff in H200. simpl in H200. rewrite Hord in H200.
    destruct H200 as [H|[H|H]]; discriminate.
Defined.

(** ** Counting documents *)

Section Counting.

Context {A : Type}.
Implicit Types (P Q : A → Prop) (l : list A).

Lemma count_zero P `{∀ x, Decision (P x)} l :
  length (filter P l) = 0 ↔ ∀ x, x ∈ l → ¬ P x.
Proof.
  rewrite length_zero_iff_nil. induction l as [|x l IH].
  - split; [intros _ y Hy; inversion Hy | reflexivity].
  - rewrite filter_cons. destruct (decide (P x)) as [Hx|Hx].
    + split; [discriminate|]. intros Hall. exfalso. apply (Hall x); [left|exact Hx].
    + rewrite IH. split.
      * intros Hall y Hy. apply elem_of_cons in Hy as [->|Hy]; auto.
      * intros Hall y Hy. apply Hall. right. exact Hy.
Qed.

Lemma count_all P `{∀ x, Decision (P x)} l :
  length (filter P l) = length l ↔ Forall P l.
Proof.
  induction l as [|x l IH]; [split; [constructor|reflexivity]|].
  rewrite filter_cons. pose proof (length_filter P l) as Hle.
  destruct (decide (P x)) as [Hx|Hx]; simpl.
  - rewrite Forall_cons. split.
    + intros [= Hl]. split; [exact Hx|]. apply IH. exact Hl.
    + intros [_ Hl]. f_equal. apply IH. exact Hl.
  - split; [lia|]. intros Hall. apply Forall_cons in Hall as [Hx' _]. contradiction.
Qed.

Lemma count_mono P Q `{∀ x, Decision (P x)} `{∀ x, Decision (Q x)} l :
  (∀ x, P x → Q x) → length (filter P l) ≤ length (filter Q l).
Proof.
  intros Himp. induction l as [|x l IH]; [reflexivity|].
  rewrite !filter_cons.
  destruct (decide (P x)) as [Hp|Hp], (decide (Q x)) as [Hq|Hq]; simpl; try lia.
  exfalso. auto.
Qed.

Lemma count_or P Q `{∀ x, Decision (P x)} `{∀ x, Decision (Q x)} l :
  (∀ x, P x → Q x → False) →
  length (filter P l) + length (filter Q l) = length (filter (λ x, P x ∨ Q x) l).
Proof.
  intros Hdis. induction l as [|x l IH]; [reflexivity|].
  rewrite !filter_cons.
  destruct (decide (P x)) as [Hp|Hp], (decide (Q x)) as [Hq|Hq],
    (decide (P x ∨ Q x)) as [Ho|Ho]; simpl; try lia; exfalso; eauto; tauto.
Qed.

Lemma NoDup_all_equal_length l :
  NoDup l → (∀ x y, x ∈ l → y ∈ l → x = y) → length l ≤ 1.
Proof.
  intros Hnd Heq. destruct l as [|x [|y l]]; simpl; try lia.
  exfalso. apply NoDup_cons in Hnd as [Hx _]. apply Hx.
  rewrite (Heq x y); [left| left | right; left].
Qed.

End Counting.

(** Splits [s ∈ [a; b; ...]] into the cases [s = a], [s = b], ... *)
Ltac known_status H :=
  repeat (apply elem_of_cons in H as [H|H]); [..|apply elem_of_nil in H; contradiction].

Lemma count_orders_zero (P : Order.t → Prop) `{∀ o, Decision (P o)} w :
  count_orders P w = 0 ↔ ∀ i o, orders w !! i = Some o → ¬ P o.
Proof.
  unfold count_orders. rewrite count_zero. split.
  - intros Hall i o Hi. apply (Hall (i, o)). apply elem_of_map_to_list. exact Hi.
  - intros Hall [i o] Hi. apply elem_of_map_to_list in Hi. exact (Hall i o Hi).
Qed.

(** X7.  On the rider dashboard, [currentOrder] is null exactly when the
    count of pending (assigned, picked up or in transit) orders is 0, which
    is also exactly when the admin's rider list shows the rider without an
    active order; and the delivered, the cancelled-or-failed and the pending
    orders of the rider together never exceed the rider's total. *)
Theorem riderDashboard_consistent (userId : ObjectId) (w : World) :
  let d := riderDashboard userId w in
  (dashboard_currentOrder d = None ↔ today_pending d = 0)
  ∧ (hasActiveOrder (riderStatus userId w) = false ↔ today_pending d = 0)
  ∧ allTime_completed d + allTime_cancelled d + today_pending d ≤ allTime_total d.
Proof.
  cbv zeta. unfold riderDashboard, riderStatus. simpl.
  assert (Hnone : Order.findOne_active userId (orders w) = None
                  ↔ count_orders (Order.active_of userId) w = 0)
    by (rewrite findOne_active_None, count_orders_zero; reflexivity).
  split; [exact Hnone|]. split.
  - rewrite <- Hnone, bool_decide_eq_false, <- eq_None_not_Some. reflexivity.
  - unfold count_orders.
    rewrite count_or.
    2: { intros [i o] [_ Hd] [_ Hc]. simpl in *. rewrite Hd in Hc.
         known_status Hc; discriminate. }
    rewrite count_or.
    2: { intros [i o] [[_ Hd]|[_ Hc]] [_ Ha]; simpl in *.
         - rewrite Hd in Ha. vm_compute in Ha. discriminate.
         - known_status Hc; rewrite Hc in Ha; vm_compute in Ha; discriminate. }
    apply count_mono. intros [i o] [[[Hr _]|[Hr _]]|[Hr _]]; exact Hr.
Qed.

(** X8.  Where every rider has at most one active order, the rider dashboard
    counts at most one pending order; and when the rider holds an active
    order, the count is exactly 1 and [currentOrder] is that order. *)
Theorem riderDashboard_one_pending (userId : ObjectId) (w : World) :
  one_active_per_rider w →
  today_pending (riderDashboard userId w) ≤ 1
  ∧ ∀ i o, orders w !! i = Some o → Order.active_of userId o →
      today_pending (riderDashboard userId w) = 1
      ∧ dashboard_currentOrder (riderDashboard userId w) = Some (i, o).
Proof.
  intros Hinv. simpl.
  assert (Hle : count_orders (Order.active_of userId) w ≤ 1).
  { unfold count_orders. apply NoDup_all_equal_length.
    - apply NoDup_filter, NoDup_map_to_list.
    - intros [i o] [j o'] Hx Hy.
      apply list_elem_of_filter in Hx as [Hpx Hx].
      apply list_elem_of_filter in Hy as [Hpy Hy].
      apply elem_of_map_to_list in Hx, Hy. simpl in *.
      assert (i = j) by (apply (Hinv userId); [exists o|exists o']; auto).
      subst j. congruence. }
  split; [exact Hle|]. intros i o Ho Ha. split.
  - destruct (count_orders (Order.active_of userId) w) as [|[|n]] eqn:Hc; [|reflexivity|lia].
    exfalso. exact (proj1 (count_orders_zero (Order.active_of userId) w) Hc i o Ho Ha).
  - destruct (Order.findOne_active userId (orders w)) as [[j o']|] eqn:Hf.
    + unfold Order.findOne_active in Hf. apply head_Some_elem_of in Hf.
      apply elem_of_map_to_list, map_lookup_filter_Some in Hf as [Hj Ha'].
      simpl in Ha'.
      assert (j = i) by (apply (Hinv userId); [exists o'|exists o]; auto).
      subst j. congruence.
    + exfalso. rewrite findOne_active_None in Hf. exact (Hf i o Ho Ha).
Qed.

(** Rider 1 on the road with order 0. *)
Lemma riderDashboard_one_pending_witness :
  today_pending (riderDashboard 1%N on_the_road) ≤ 1
  ∧ today_pending (riderDashboard 1%N on_the_road) = 1
  ∧ fst <$> dashboard_currentOrder (riderDashboard 1%N on_the_road) = Some 0%N.
Proof.
  assert (Hinv : one_active_per_rider on_the_road).
  { change (one_active_per_rider
      (serve wall (Assign 0%N 1%N)
         (serve wall (Create 9%N parcel) (serve wall (Create 9%N parcel) depot)))).
    apply serve_keeps_one_active; [|reflexivity].
    apply serve_keeps_one_active; [|reflexivity].
    apply serve_keeps_one_active; [|reflexivity].
    apply no_orders_one_active. reflexivity. }
  destruct (riderDashboard_one_pending 1%N on_the_road Hinv) as [Hle Hone].
  split; [exact Hle|].
  destruct (orders on_the_road !! 0%N) as [o|] eqn:Ho; [|vm_compute in Ho; discriminate].
  assert (Ha : Order.active_of 1%N o).
  { vm_compute in Ho. injection Ho as <-. split; reflexivity. }
  destruct (Hone 0%N o Ho Ha) as [H1 H2]. split; [exact H1|].
  rewrite H2. reflexivity.
Defined.

(** X9.  On the admin dashboard the four order buckets (pending, in
    progress, completed, cancelled or failed) never count more than the
    total, and they add up to the total exactly when every stored order has
    one of the seven known statuses; businesses and riders together never
    exceed the number of users. *)
Theorem adminStats_buckets (w : World) :
  let s := adminStats w in
  orders_pending s + orders_inProgress s + orders_completed s + orders_cancelled s
    ≤ orders_total s
  ∧ (orders_pending s + orders_inProgress s + orders_completed s + orders_cancelled s
       = orders_total s
     ↔ ∀ i o, orders w !! i = Some o →
         Order.status o ∈ ["pending"; "assigned"; "picked_up"; "in_transit";
                           "delivered"; "cancelled"; "failed"])
  ∧ users_businesses s + users_riders s ≤ users_total s.
Proof.
  cbv zeta. unfold adminStats, count_orders, count_users. simpl.
  rewrite count_or.
  2: { intros [i o] Hp Ha; simpl in *. rewrite Hp in Ha. vm_compute in Ha.
       discriminate. }
  rewrite count_or.
  2: { intros [i o] [Hp|Ha] Hd; simpl in *.
       - rewrite Hp in Hd. discriminate.
       - rewrite Hd in Ha. vm_compute in Ha. discriminate. }
  rewrite count_or.
  2: { intros [i o] [[Hp|Ha]|Hd] Hc; simpl in *.
       - known_status Hc; rewrite Hc in Hp; discriminate.
       - known_status Hc; rewrite Hc in Ha; vm_compute in Ha; discriminate.
       - known_status Hc; rewrite Hc in Hd; discriminate. }
  assert (Htotal : ∀ l : list (ObjectId * Order.t),
            length (filter (λ _, True) l) = length l).
  { intros l. apply count_all. apply Forall_forall. auto. }
  rewrite Htotal. split; [apply length_filter|]. split.
  - rewrite count_all, Forall_forall. split.
    + intros Hall i o Ho.
      specialize (Hall (i, o) (proj2 (elem_of_map_to_list _ _ _) Ho)). simpl in Hall.
      destruct Hall as [[[->| Ha]| ->]| Hc].
      * set_unfold. auto.
      * unfold Order.active in Ha. apply bool_decide_eq_true in Ha.
        known_status Ha; rewrite Ha; set_unfold; auto.
      * set_unfold. auto 10.
      * known_status Hc; rewrite Hc; set_unfold; auto 10.
    + intros Hall [i o] Hio. apply elem_of_map_to_list in Hio.
      specialize (Hall i o Hio). simpl.
      known_status Hall; rewrite Hall; auto; [..|right; set_unfold; auto];
        try (left; left; right; reflexivity);
        try (right; set_unfold; auto).
  - rewrite count_or.
    2: { intros [i u] Hb Hr; simpl in *. rewrite Hb in Hr. discriminate. }
    assert (Hall : ∀ l : list (ObjectId * User.t),
              length (filter (λ _, True) l) = length l).
    { intros l. apply count_all. apply Forall_forall. auto. }
    rewrite Hall. apply length_filter.
Qed.

(** X10.  The [hasActiveOrder] flag of the admin's rider list tells what an
    assignment will do: for an existing order and an active rider, [assign]
    refuses with 400 exactly when the flag is set and succeeds with 200
    exactly when it is not. *)
Theorem hasActiveOrder_predicts_assign (clock : nat → Z) (w : World)
    (orderId riderId : ObjectId) :
  is_Some (orders w !! orderId) →
  active_rider w riderId →
  (hasActiveOrder (riderStatus riderId w) = true
   ↔ code (finish (assign clock orderId riderId) w).1 = 400)
  ∧ (hasActiveOrder (riderStatus riderId w) = false
     ↔ code (finish (assign clock orderId riderId) w).1 = 200).
Proof.
  intros [o Ho] Hr. apply active_rider_findOne in Hr as [u Hu].
  rewrite assign_run. unfold Order.findById, riderStatus. simpl.
  rewrite Ho, Hu.
  destruct (Order.findOne_active riderId (orders w)) as [a|]; simpl;
    repeat split; intros; first [reflexivity | discriminate].
Qed.

(** Rider 1 is on the road with order 0 when order 1 is to be assigned;
    rider 2 is free. *)
Lemma hasActiveOrder_predicts_assign_witness :
  (hasActiveOrder (riderStatus 1%N on_the_road) = true
   ∧ code (finish (assign wall 1%N 1%N) on_the_road).1 = 400)
  ∧ (hasActiveOrder (riderStatus 2%N on_the_road) = false
     ∧ code (finish (assign wall 1%N 2%N) on_the_road).1 = 200).
Proof.
  assert (Ho : is_Some (orders on_the_road !! 1%N)) by (vm_compute; eauto).
  assert (H1 : active_rider on_the_road 1%N)
    by (apply active_rider_findOne; vm_compute; eauto).
  assert (H2 : active_rider on_the_road 2%N)
    by (apply active_rider_findOne; vm_compute; eauto).
  destruct (hasActiveOrder_predicts_assign wall on_the_road 1%N 1%N Ho H1) as [Hbusy _].
  destruct (hasActiveOrder_predicts_assign wall on_the_road 1%N 2%N Ho H2) as [_ Hfree].
  assert (Hb : hasActiveOrder (riderStatus 1%N on_the_road) = true)
    by (vm_compute; reflexivity).
  assert (Hf : hasActiveOrder (riderStatus 2%N on_the_road) = false)
    by (vm_compute; reflexivity).
  split.
  - split; [exact Hb|]. apply Hbusy. exact Hb.
  - split; [exact Hf|]. apply Hfree. exact Hf.
Defined.

(** ** How requests move the counts *)

Lemma count_orders_insert_fresh (P : Order.t → Prop) `{∀ o, Decision (P o)} w w' k o :
  orders w !! k = None →
  orders w' = <[k := o]> (orders w) →
  count_orders P w' = counted P o + count_orders P w.
Proof.
  intros Hk Ho. unfold count_orders, counted. rewrite Ho.
  rewrite (Permutation_length
             (filter_Permutation _ _ _ (map_to_list_insert (orders w) k o Hk))).
  rewrite filter_cons. simpl. destruct (decide (P o)); reflexivity.
Qed.

Lemma count_orders_insert_existing (P : Order.t → Prop) `{∀ o, Decision (P o)}
    w w' k old o :
  orders w !! k = Some old →
  orders w' = <[k := o]> (orders w) →
  count_orders P w' + counted P old = count_orders P w + counted P o.
Proof.
  intros Hk Ho.
  pose (rest := set_orders (delete k) w).
  assert (Hrest : orders rest !! k = None) by apply lookup_delete_eq.
  rewrite (count_orders_insert_fresh P rest w' k o Hrest)
    by (rewrite Ho; simpl; symmetry; apply insert_delete_eq).
  rewrite (count_orders_insert_fresh P rest w k old Hrest)
    by (simpl; symmetry; apply insert_delete_id; exact Hk).
  lia.
Qed.

(** X11.  A created order is counted once and as pending: the admin's total
    and pending counts and the creating business's own total and pending
    counts each go up by one, and the in-progress, completed and cancelled
    counts stay as they were. *)
Theorem create_counts (clock : nat → Z) (w : World) (userId : ObjectId)
    (d : Order.details) :
  let w' := (finish (create clock userId d) w).2 in
  orders_total (adminStats w') = 1 + orders_total (adminStats w)
  ∧ orders_pending (adminStats w') = 1 + orders_pending (adminStats w)
  ∧ orders_inProgress (adminStats w') = orders_inProgress (adminStats w)
  ∧ orders_completed (adminStats w') = orders_completed (adminStats w)
  ∧ orders_cancelled (adminStats w') = orders_cancelled (adminStats w)
  ∧ stats_total (orderStats userId w') = 1 + stats_total (orderStats userId w)
  ∧ stats_pending (orderStats userId w') = 1 + stats_pending (orderStats userId w)
  ∧ stats_completed (orderStats userId w') = stats_completed (orderStats userId w).
Proof.
  cbv zeta. rewrite create_run. cbv zeta. simpl.
  set (o := Order.fresh_document userId d _).
  set (w' := set_orders _ _).
  assert (Hfresh : orders w !! fresh (dom (orders w)) = None)
    by (apply not_elem_of_dom, is_fresh).
  assert (Hcount : ∀ (P : Order.t → Prop) `{∀ o, Decision (P o)},
            count_orders P w' = counted P o + count_orders P w).
  { intros P HP. apply (count_orders_insert_fresh P w w' _ o Hfresh). reflexivity. }
  rewrite !Hcount. unfold counted. subst o. simpl.
  repeat split; repeat case_decide; try reflexivity; try tauto;
    repeat match goal with
    | H : _ ∧ _ |- _ => destruct H
    | H : _ ∈ _ |- _ => known_status H; discriminate
    | H : ¬ (_ ∧ _) |- _ => exfalso; apply H; split; reflexivity
    | H : Order.active _ = true |- _ => vm_compute in H; discriminate
    | H : _ = _ |- _ => discriminate H
    | H : ¬ _ |- _ => exfalso; apply H; reflexivity
    end.
Qed.

(** X12.  A status update moves exactly one order between the status
    counts: however statuses are grouped, the count of the group after a
    successful update, plus one if the old status was in the group, is the
    count before plus one if the new status is. *)
Theorem transition_moves_one_count (clock : nat → Z) (w : World)
    (userId orderId : ObjectId) (status : string) (notes : option string)
    (la lo : jsval) (o : Order.t) (P : string → Prop) `{∀ s, Decision (P s)} :
  orders w !! orderId = Some o →
  Order.rider o = Some userId →
  let w' := (finish (transition clock userId orderId status notes la lo) w).2 in
  count_orders (λ x, P (Order.status x)) w' + (if decide (P (Order.status o)) then 1 else 0)
  = count_orders (λ x, P (Order.status x)) w + (if decide (P status) then 1 else 0).
Proof.
  intros Ho Hr. cbv zeta.
  assert (Hf : Order.findOne_owned orderId userId (orders w) = Some o)
    by (apply findOne_owned_Some; auto).
  destruct (transition_found clock w userId orderId status notes la lo o Hf)
    as (_ & Hstored & _).
  pose proof (count_orders_insert_existing (λ x, P (Order.status x)) w _ orderId o
                (transitioned clock w status notes la lo o) Ho Hstored) as Hmove.
  unfold counted in Hmove.
  assert (Hs : Order.status (transitioned clock w status notes la lo o) = status).
  { unfold transitioned. destruct (String.eqb status "delivered"); reflexivity. }
  rewrite Hs in Hmove. exact Hmove.
Qed.

(** Rider 1 delivers order 0: one order leaves the in-progress bucket and
    one enters the completed bucket. *)
Lemma transition_moves_one_count_witness :
  (orders_inProgress (adminStats on_the_road) = 1
   ∧ orders_completed (adminStats on_the_road) = 0)
  ∧ (orders_inProgress (adminStats after_delivery) = 0
     ∧ orders_completed (adminStats after_delivery) = 1).
Proof.
  split; [split; vm_compute; reflexivity|].
  destruct (orders on_the_road !! 0%N) as [o|] eqn:Ho; [|vm_compute in Ho; discriminate].
  assert (Hr : Order.rider o = Some 1%N ∧ Order.status o = "assigned")
    by (vm_compute in Ho; injection Ho as <-; split; reflexivity).
  destruct Hr as [Hr Hs].
  pose proof (transition_moves_one_count wall on_the_road 1%N 0%N "delivered" None
                JUndefined JUndefined o (λ s, Order.active s = true) Ho Hr) as Hact.
  pose proof (transition_moves_one_count wall on_the_road 1%N 0%N "delivered" None
                JUndefined JUndefined o (λ s, s = "delivered") Ho Hr) as Hdel.
  cbv zeta in Hact, Hdel. rewrite Hs in Hact, Hdel.
  change ((finish (transition wall 1%N 0%N "delivered" None JUndefined JUndefined)
             on_the_road).2) with after_delivery in Hact, Hdel.
  assert (H1 : count_orders (λ x, Order.active (Order.status x) = true) on_the_road = 1)
    by (vm_compute; reflexivity).
  assert (H0 : count_orders (λ x, Order.status x = "delivered") on_the_road = 0)
    by (vm_compute; reflexivity).
  rewrite H1 in Hact. rewrite H0 in Hdel. simpl in Hact, Hdel.
  assert (Ha : count_orders (λ x, Order.active (Order.status x) = true) after_delivery = 0)
    by lia.
  assert (Hd : count_orders (λ x, Order.status x = "delivered") after_delivery = 1)
    by lia.
  split; [exact Ha|exact Hd].
Defined.

(** X13.  Orders are only ever added, one per creation: the admin's total
    after a create answered 201 is the total before plus one, and the total
    after an assignment, a status update, a failure report or a location
    update is the total before, whether they succeed or not. *)
Theorem orders_total_follows_creates (clock : nat → Z) (req : Request) (w : World) :
  orders_total (adminStats (serve clock req w))
  = orders_total (adminStats w)
    + match req with
      | Create _ _ => if Nat.eqb (code (finish (handle clock req) w).1) 201 then 1 else 0
      | _ => 0
      end.
Proof.
  simpl.
  assert (Hsame : ∀ w', orders w' = orders w →
            count_orders (λ _, True) w' = count_orders (λ _, True) w + 0).
  { intros w' Ho. unfold count_orders. rewrite Ho. lia. }
  assert (Hkeep : ∀ w' k old o, orders w !! k = Some old →
            orders w' = <[k := o]> (orders w) →
            count_orders (λ _, True) w' = count_orders (λ _, True) w + 0).
  { intros w' k old o Hk Ho.
    pose proof (count_orders_insert_existing (λ _, True) w w' k old o Hk Ho) as Hc.
    unfold counted in Hc. simpl in Hc. lia. }
  unfold serve. destruct req as [u d|o r|u o s n la lo|u o reason|u la lo on];
    unfold handle.
  - rewrite create_run. cbv zeta. simpl.
    set (w' := set_orders _ _).
    assert (Hfresh : orders w !! fresh (dom (orders w)) = None)
      by (apply not_elem_of_dom, is_fresh).
    erewrite (count_orders_insert_fresh (λ _, True) w w' _ _ Hfresh) by reflexivity.
    unfold counted. simpl. lia.
  - rewrite assign_run. unfold Order.findById.
    destruct (orders w !! o) as [ord|] eqn:Ho; [|apply Hsame; reflexivity].
    destruct (User.findOne_active_rider r (users w)); [|apply Hsame; reflexivity].
    destruct (Order.findOne_active r (orders w)); [apply Hsame; reflexivity|].
    apply (Hkeep _ o ord (assigned clock w r ord) Ho). reflexivity.
  - destruct (Order.findOne_owned o u (orders w)) as [ord|] eqn:Hf.
    + destruct (transition_found clock w u o s n la lo ord Hf) as (_ & Hst & _).
      apply findOne_owned_Some in Hf as [Hl _].
      apply (Hkeep _ o ord _ Hl Hst).
    + rewrite transition_not_found by assumption. apply Hsame. reflexivity.
  - destruct (Order.findOne_owned o u (orders w)) as [ord|] eqn:Hf.
    + rewrite (fail_found clock w u o reason ord Hf).
      apply findOne_owned_Some in Hf as [Hl _].
      apply (Hkeep _ o ord (failed clock w reason ord) Hl). reflexivity.
    + rewrite fail_not_found by assumption. apply Hsame. reflexivity.
  - rewrite updateLocation_run. cbv zeta. apply Hsame.
    destruct (RiderLocation.currentOrder (positioned w u la lo on)); reflexivity.
Qed.

(** ** Paging *)

Lemma paged_from_1 {A} (matching : list A) (page limit : nat) :
  limit ≠ 0 → 1 ≤ page →
  paged matching page limit = Some (take limit (drop ((page - 1) * limit) matching)).
Proof.
  intros Hl Hp. unfold paged.
  destruct (Nat.eqb_spec page 0) as [->|_]; [lia|].
  destruct (Nat.eqb_spec limit 0) as [->|_]; [lia|]. reflexivity.
Qed.

Lemma concat_chunks {A} (l : list A) (limit n : nat) :
  concat ((λ k, take limit (drop (k * limit) l)) <$> seq 0 n) = take (n * limit) l.
Proof.
  induction n as [|n IH]; [reflexivity|].
  rewrite seq_S, fmap_app, concat_app, IH. simpl. rewrite app_nil_r.
  rewrite take_take_drop. f_equal. lia.
Qed.

Lemma pages_bounds (total limit n : nat) :
  pages total limit = Some n →
  limit ≠ 0 ∧ total ≤ n * limit ∧ ∀ k, k < n → k * limit < total.
Proof.
  unfold pages. destruct (Nat.eqb_spec limit 0) as [->|Hl]; [discriminate|].
  intros [= <-]. split; [exact Hl|].
  pose proof (Nat.div_mod_eq total limit) as Hdm.
  pose proof (Nat.mod_upper_bound total limit Hl) as Hub.
  destruct (Nat.eqb_spec (total `mod` limit) 0) as [Hz|Hz]; split; intros; nia.
Qed.

(** X14.  The pages of a list route cover the result exactly once.  When
    the route reports [n] pages for a positive limit, pages 1 to [n] are all
    answered, none is empty, none is longer than the limit, and put one
    after the other they are the sorted result; every later page is
    empty. *)
Theorem pages_cover {A} (matching : list A) (limit n : nat) :
  pages (length matching) limit = Some n →
  concat ((λ page, default [] (paged matching page limit)) <$> seq 1 n) = matching
  ∧ (∀ page, 1 ≤ page ≤ n →
       ∃ docs, paged matching page limit = Some docs ∧ 0 < length docs ≤ limit)
  ∧ (∀ page, n < page → paged matching page limit = Some []).
Proof.
  intros Hp. apply pages_bounds in Hp as (Hl & Hup & Hlow). split; [|split].
  - rewrite <- fmap_S_seq, <- list_fmap_compose.
    assert (Heq : ((λ page, default [] (paged matching page limit)) ∘ S) <$> seq 0 n
                  = (λ k, take limit (drop (k * limit) matching)) <$> seq 0 n).
    { apply list_fmap_ext. intros i k _. unfold compose.
      rewrite paged_from_1 by lia. simpl. rewrite Nat.sub_0_r. reflexivity. }
    rewrite Heq, concat_chunks. apply take_ge. exact Hup.
  - intros page [H1 Hn]. rewrite paged_from_1 by assumption.
    eexists. split; [reflexivity|].
    rewrite length_take, length_drop.
    specialize (Hlow (page - 1)). lia.
  - intros page Hn. rewrite paged_from_1 by lia. f_equal.
    rewrite drop_ge; [apply take_nil|].
    assert (n * limit ≤ (page - 1) * limit) by (apply Nat.mul_le_mono_r; lia). lia.
Qed.

(** Seven results in pages of three. *)
Lemma pages_cover_witness :
  pages 7 3 = Some 3
  ∧ paged [1; 2; 3; 4; 5; 6; 7] 3 3 = Some [7]
  ∧ concat ((λ page, default [] (paged [1; 2; 3; 4; 5; 6; 7] page 3)) <$> seq 1 3)
    = [1; 2; 3; 4; 5; 6; 7].
Proof.
  split; [reflexivity|]. split; [reflexivity|].
  apply (pages_cover [1; 2; 3; 4; 5; 6; 7] 3 3). reflexivity.
Defined.

(** ** The core requests, once more *)

(** X16.  Finishing the active order frees the rider.  Where every rider
    has at most one active order, a rider who moves their active order to a
    status outside assigned, picked up and in transit, or reports it failed,
    holds no active order afterwards, and the next assignment of any
    existing order to that rider (still an active account) is answered
    200. *)
Theorem finished_order_frees_rider (clock : nat → Z) (w : World)
    (userId orderId : ObjectId) (o : Order.t) :
  one_active_per_rider w →
  orders w !! orderId = Some o →
  Order.active_of userId o →
  (∀ status notes la lo,
     Order.active status = false →
     let w' := (finish (transition clock userId orderId status notes la lo) w).2 in
     idle w' userId
     ∧ ∀ next, is_Some (orders w' !! next) → active_rider w' userId →
         code (finish (assign clock next userId) w').1 = 200)
  ∧ (∀ reason,
     let w' := (finish (fail clock userId orderId reason) w).2 in
     idle w' userId
     ∧ ∀ next, is_Some (orders w' !! next) → active_rider w' userId →
         code (finish (assign clock next userId) w').1 = 200).
Proof.
  intros Hinv Ho [Hr Hact].
  assert (Hf : Order.findOne_owned orderId userId (orders w) = Some o)
    by (apply findOne_owned_Some; auto).
  assert (Hfree : ∀ w' o', orders w' = <[orderId := o']> (orders w) →
            Order.active (Order.status o') = false →
            idle w' userId
            ∧ ∀ next, is_Some (orders w' !! next) → active_rider w' userId →
                code (finish (assign clock next userId) w').1 = 200).
  { intros w' o' Hst Hno.
    assert (Hidle : idle w' userId).
    { intros i Hi. apply (holds_active_insert w w' orderId o' userId i Hst) in Hi.
      destruct Hi as [[_ [_ Ha]]|[Hne Hi]]; [congruence|].
      apply Hne. apply (Hinv userId); [exact Hi|]. exists o. split; [exact Ho|].
      split; assumption. }
    split; [exact Hidle|]. intros next [nx Hnx] Hrider.
    rewrite (assign_success clock w' next userId nx) by assumption. reflexivity. }
  split.
  - intros status notes la lo Hno. cbv zeta.
    destruct (transition_found clock w userId orderId status notes la lo o Hf)
      as (_ & Hst & _).
    apply (Hfree _ _ Hst). unfold transitioned.
    destruct (String.eqb status "delivered"); exact Hno.
  - intros reason. cbv zeta. rewrite (fail_found clock w userId orderId reason o Hf).
    apply (Hfree _ (failed clock w reason o)); reflexivity.
Qed.

(** Rider 1 delivers order 0 and is then given order 1. *)
Lemma finished_order_frees_rider_witness :
  code (finish (assign wall 1%N 1%N) on_the_road).1 = 400
  ∧ code (finish (assign wall 1%N 1%N) after_delivery).1 = 200.
Proof.
  split; [vm_compute; reflexivity|].
  assert (Hinv : one_active_per_rider on_the_road).
  { change (one_active_per_rider
      (serve wall (Assign 0%N 1%N)
         (serve wall (Create 9%N parcel) (serve wall (Create 9%N parcel) depot)))).
    apply serve_keeps_one_active; [|reflexivity].
    apply serve_keeps_one_active; [|reflexivity].
    apply serve_keeps_one_active; [|reflexivity].
    apply no_orders_one_active. reflexivity. }
  destruct (orders on_the_road !! 0%N) as [o|] eqn:Ho; [|vm_compute in Ho; discriminate].
  assert (Ha : Order.active_of 1%N o)
    by (vm_compute in Ho; injection Ho as <-; split; reflexivity).
  destruct (finished_order_frees_rider wall on_the_road 1%N 0%N o Hinv Ho Ha)
    as [Hdone _].
  destruct (Hdone "delivered" None JUndefined JUndefined eq_refl) as [_ Hnext].
  apply (Hnext 1%N).
  - vm_compute. eauto.
  - apply active_rider_findOne. vm_compute. eauto.
Defined.

Lemma findOneAndUpdate_other riderId f (coll : gmap ObjectId RiderLocation.t) r :
  r ≠ riderId →
  RiderLocation.findOneAndUpdate riderId f coll !! r = coll !! r.
Proof.
  intros Hne. unfold RiderLocation.findOneAndUpdate.
  destruct (coll !! riderId); [|reflexivity]. apply lookup_insert_ne. congruence.
Qed.

(** X17.  A core request writes one order and one location record at most:
    whatever the request and its outcome, users and room subscriptions are
    unchanged, every order other than the one the request addresses is
    unchanged, and so is every location record other than that of the rider
    it addresses.  An assignment in particular leaves the record of the
    rider who held the order before pointing at it. *)
Theorem request_frame (clock : nat → Z) (req : Request) (w : World) :
  let w' := serve clock req w in
  users w' = users w
  ∧ rooms w' = rooms w
  ∧ (∀ j, addressed_order req w ≠ Some j → orders w' !! j = orders w !! j)
  ∧ (∀ r, addressed_rider req ≠ Some r → locations w' !! r = locations w !! r).
Proof.
  cbv zeta. unfold serve.
  destruct req as [u d|o r|u o s n la lo|u o reason|u la lo on]; unfold handle;
    simpl addressed_order; simpl addressed_rider.
  - rewrite create_run. cbv zeta. simpl. repeat split; try reflexivity.
    intros j Hj. apply lookup_insert_ne. congruence.
  - rewrite assign_run.
    destruct (Order.findById o (orders w)); [|repeat split; reflexivity].
    destruct (User.findOne_active_rider r (users w)); [|repeat split; reflexivity].
    destruct (Order.findOne_active r (orders w)); [repeat split; reflexivity|].
    simpl. repeat split; try reflexivity.
    + intros j Hj. apply lookup_insert_ne. congruence.
    + intros r' Hr'. apply findOneAndUpdate_other. congruence.
  - destruct (Order.findOne_owned o u (orders w)) as [ord|] eqn:Hf.
    + destruct (transition_found clock w u o s n la lo ord Hf)
        as (_ & -> & -> & -> & -> & _).
      repeat split; try reflexivity.
      intros j Hj. apply lookup_insert_ne. congruence.
    + rewrite transition_not_found by assumption. repeat split; reflexivity.
  - destruct (Order.findOne_owned o u (orders w)) as [ord|] eqn:Hf.
    + rewrite (fail_found clock w u o reason ord Hf). simpl.
      repeat split; try reflexivity.
      * intros j Hj. apply lookup_insert_ne. congruence.
      * intros r' Hr'. apply findOneAndUpdate_other. congruence.
    + rewrite fail_not_found by assumption. repeat split; reflexivity.
  - rewrite updateLocation_run. cbv zeta.
    destruct (RiderLocation.currentOrder (positioned w u la lo on)); simpl;
      repeat split; try reflexivity;
      intros r' Hr'; apply lookup_insert_ne; congruence.
Qed.

(** X18.  Only status updates, failure reports and location updates publish.
    A create and an assignment publish nothing, whatever their outcome; a
    status update or failure report answered 200 publishes exactly one
    status event, to the room of its order, and one not answered 200
    publishes nothing; no request removes or reorders what was published. *)
Theorem requests_publish (clock : nat → Z) (req : Request) (w : World) :
  let out := finish (handle clock req) w in
  match req with
  | Create _ _ | Assign _ _ => emitted out.2 = emitted w
  | Transition _ orderId status _ la lo =>
    if Nat.eqb (code out.1) 200
    then ∃ at_time, emitted out.2 = (emitted w ++
           [(orderId, StatusUpdate orderId status at_time
                        (Some {| latitude := la; longitude := lo |}) None)])%list
    else emitted out.2 = emitted w
  | Fail _ orderId reason =>
    if Nat.eqb (code out.1) 200
    then ∃ at_time, emitted out.2 = (emitted w ++
           [(orderId, StatusUpdate orderId "failed" at_time None (Some reason))])%list
    else emitted out.2 = emitted w
  | UpdateLocation _ _ _ _ => emitted w `prefix_of` emitted out.2
  end.
Proof.
  cbv zeta. destruct req as [u d|o r|u o s n la lo|u o reason|u la lo on]; unfold handle.
  - rewrite create_run. reflexivity.
  - rewrite assign_run.
    destruct (Order.findById o (orders w)); [|reflexivity].
    destruct (User.findOne_active_rider r (users w)); [|reflexivity].
    destruct (Order.findOne_active r (orders w)); reflexivity.
  - destruct (Order.findOne_owned o u (orders w)) as [ord|] eqn:Hf.
    + destruct (transition_found clock w u o s n la lo ord Hf)
        as (-> & _ & _ & _ & _ & _ & ->). simpl. eauto.
    + rewrite transition_not_found by assumption. reflexivity.
  - destruct (Order.findOne_owned o u (orders w)) as [ord|] eqn:Hf.
    + rewrite (fail_found clock w u o reason ord Hf). simpl. eauto.
    + rewrite fail_not_found by assumption. reflexivity.
  - rewrite updateLocation_run. cbv zeta.
    destruct (RiderLocation.currentOrder (positioned w u la lo on)); simpl.
    + apply prefix_app_r. reflexivity.
    + reflexivity.
Qed.

Lemma updateLocation_stored clock w userId la lo isOnline :
  let out := finish (updateLocation clock userId la lo isOnline) w in
  out.1 = {| code := 200; message := "Location updated successfully";
             body := LocationBody (positioned w userId la lo isOnline) |}
  ∧ locations out.2 = <[userId := positioned w userId la lo isOnline]> (locations w)
  ∧ orders out.2 = orders w.
Proof.
  cbv zeta. rewrite updateLocation_run. cbv zeta.
  destruct (RiderLocation.currentOrder (positioned w userId la lo isOnline));
    repeat split; reflexivity.
Qed.

(** X19.  Sending the same position twice stores what sending it once
    stores: the location collection after the second update equals the one
    after the first, both calls answer with the same record, and no order is
    touched. *)
Theorem updateLocation_idempotent (clock : nat → Z) (w : World) (userId : ObjectId)
    (la lo : jsval) (isOnline : option bool) :
  let once := finish (updateLocation clock userId la lo isOnline) w in
  let twice := finish (updateLocation clock userId la lo isOnline) once.2 in
  locations twice.2 = locations once.2
  ∧ twice.1 = once.1
  ∧ orders twice.2 = orders w.
Proof.
  cbv zeta.
  destruct (updateLocation_stored clock w userId la lo isOnline) as (Hr1 & Hl1 & Ho1).
  destruct (updateLocation_stored clock
              (finish (updateLocation clock userId la lo isOnline) w).2
              userId la lo isOnline) as (Hr2 & Hl2 & Ho2).
  cbv zeta in *.
  assert (Hrec : positioned (finish (updateLocation clock userId la lo isOnline) w).2
                   userId la lo isOnline
                 = positioned w userId la lo isOnline).
  { unfold positioned at 1. rewrite Hl1, lookup_insert_eq. reflexivity. }
  rewrite Hr2, Hl2, Ho2, Hrec, Hr1, Hl1, Ho1.
  split; [apply insert_insert_eq|]. split; reflexivity.
Qed.

Lemma updateLocation_emits clock w userId la lo isOnline :
  emitted (finish (updateLocation clock userId la lo isOnline) w).2 =
    (emitted w ++
     match locations w !! userId ≫= RiderLocation.currentOrder with
     | Some order =>
       [(order, LocationUpdate order {| latitude := la; longitude := lo |}
                  (clock (ticks w)))]
     | None => []
     end)%list.
Proof.
  rewrite updateLocation_run. cbv zeta. unfold positioned. simpl.
  destruct (locations w !! userId) as [l|]; simpl;
    [destruct (RiderLocation.currentOrder l)|]; simpl; rewrite ?app_nil_r; reflexivity.
Qed.

(** X20.  Location events follow the assignment.  Once an order is assigned
    to a rider who has a location record, each location update of that rider
    publishes one location event to the order's room; once the rider has
    reported the order failed, their location updates publish nothing. *)
Theorem location_events_follow_assignment (clock : nat → Z) (w : World)
    (orderId riderId : ObjectId) (o : Order.t) (l : RiderLocation.t)
    (la lo : jsval) (isOnline : option bool) (reason : string) :
  orders w !! orderId = Some o →
  active_rider w riderId →
  idle w riderId →
  locations w !! riderId = Some l →
  let w1 := (finish (assign clock orderId riderId) w).2 in
  let w2 := (finish (updateLocation clock riderId la lo isOnline) w1).2 in
  let w3 := (finish (fail clock riderId orderId reason) w1).2 in
  let w4 := (finish (updateLocation clock riderId la lo isOnline) w3).2 in
  emitted w2 = (emitted w1 ++
    [(orderId, LocationUpdate orderId {| latitude := la; longitude := lo |}
                 (clock (ticks w1)))])%list
  ∧ code (finish (fail clock riderId orderId reason) w1).1 = 200
  ∧ emitted w4 = emitted w3.
Proof.
  intros Ho Hr Hi Hl. cbv zeta.
  rewrite (assign_success clock w orderId riderId o) by assumption.
  set (w1 := (_, _).2).
  assert (Hl1 : locations w1 !! riderId
                = Some (RiderLocation.set_currentOrder (Some orderId) l)).
  { subst w1. simpl. unfold RiderLocation.findOneAndUpdate. rewrite Hl.
    apply lookup_insert_eq. }
  assert (Hf : Order.findOne_owned orderId riderId (orders w1)
               = Some (assigned clock w riderId o)).
  { apply findOne_owned_Some. subst w1. simpl. rewrite lookup_insert_eq. auto. }
  split; [|split].
  - rewrite updateLocation_emits, Hl1. reflexivity.
  - rewrite (fail_found clock w1 riderId orderId reason _ Hf). reflexivity.
  - rewrite updateLocation_emits.
    rewrite (fail_found clock w1 riderId orderId reason _ Hf).
    cbn [snd locations publish tick set_locations set_orders].
    unfold RiderLocation.findOneAndUpdate. rewrite Hl1, lookup_insert_eq.
    simpl. apply app_nil_r.
Qed.

(** Order 0 goes to rider 1 of the depot, who then moves. *)
Lemma location_events_follow_assignment_witness :
  emitted (serve_all wall
             [Assign 0%N 1%N; UpdateLocation 1%N (JNum (247 # 10)) (JNum (467 # 10)) None]
             two_orders)
  = [(0%N, LocationUpdate 0%N {| latitude := JNum (247 # 10);
                                 longitude := JNum (467 # 10) |} (wall 3))]
  ∧ emitted (serve_all wall
               [Assign 0%N 1%N; Fail 1%N 0%N "closed";
                UpdateLocation 1%N (JNum (247 # 10)) (JNum (467 # 10)) None]
               two_orders)
    = emitted (serve_all wall [Assign 0%N 1%N; Fail 1%N 0%N "closed"] two_orders).
Proof.
  destruct (orders two_orders !! 0%N) as [o|] eqn:Ho; [|vm_compute in Ho; discriminate].
  destruct (locations two_orders !! 1%N) as [l|] eqn:Hl;
    [|vm_compute in Hl; discriminate].
  assert (Hr : active_rider two_orders 1%N)
    by (apply active_rider_findOne; vm_compute; eauto).
  assert (Hi : idle two_orders 1%N)
    by (apply idle_findOne_active; vm_compute; reflexivity).
  destruct (location_events_follow_assignment wall two_orders 0%N 1%N o l
              (JNum (247 # 10)) (JNum (467 # 10)) None "closed" Ho Hr Hi Hl)
    as (H2 & _ & H4).
  split.
  - etransitivity; [exact H2|]. vm_compute. reflexivity.
  - exact H4.
Defined.

(** X21.  Nobody but the assigned rider can move an order: for an order
    whose rider is someone else or not set, every status update and every
    failure report is answered 404 and changes nothing. *)
Theorem strangers_cannot_move_order (clock : nat → Z) (w : World)
    (userId orderId : ObjectId) (o : Order.t) :
  orders w !! orderId = Some o →
  Order.rider o ≠ Some userId →
  (∀ status notes la lo,
     finish (transition clock userId orderId status notes la lo) w
     = ({| code := 404; message := "Order not found"; body := NoBody |}, w))
  ∧ (∀ reason,
     finish (fail clock userId orderId reason) w
     = ({| code := 404; message := "Order not found"; body := NoBody |}, w)).
Proof.
  intros Ho Hr.
  assert (Hf : Order.findOne_owned orderId userId (orders w) = None)
    by (apply findOne_owned_None; right; eauto).
  split; intros.
  - apply transition_not_found. exact Hf.
  - apply fail_not_found. exact Hf.
Qed.

(** Rider 2 tries to deliver order 0, which rider 1 carries, and rider 1
    tries to fail order 1, which nobody carries. *)
Lemma strangers_cannot_move_order_witness :
  code (finish (transition wall 2%N 0%N "delivered" None JUndefined JUndefined)
          on_the_road).1 = 404
  ∧ (finish (fail wall 1%N 1%N "not mine") on_the_road).2 = on_the_road.
Proof.
  destruct (orders on_the_road !! 0%N) as [o0|] eqn:H0;
    [|vm_compute in H0; discriminate].
  destruct (orders on_the_road !! 1%N) as [o1|] eqn:H1;
    [|vm_compute in H1; discriminate].
  assert (Hr0 : Order.rider o0 ≠ Some 2%N)
    by (vm_compute in H0; injection H0 as <-; discriminate).
  assert (Hr1 : Order.rider o1 ≠ Some 1%N)
    by (vm_compute in H1; injection H1 as <-; discriminate).
  destruct (strangers_cannot_move_order wall on_the_road 2%N 0%N o0 H0 Hr0) as [Ht _].
  destruct (strangers_cannot_move_order wall on_the_road 1%N 1%N o1 H1 Hr1) as [_ Hf].
  split.
  - rewrite Ht. reflexivity.
  - rewrite Hf. reflexivity.
Defined.

(** X22.  A business can read back the order it has just created: with an
    existing account, the identifier answered by the create gives, on GET
    /:orderId by that business, a 200 with the very order the create
    answered with, which carries the submitted details. *)
Theorem create_then_get (clock : nat → Z) (w : World) (userId : ObjectId)
    (role : string) (d : Order.details) :
  is_Some (users w !! userId) →
  let out := finish (create clock userId d) w in
  ∃ orderId o,
    body out.1 = OrderBody orderId o
    ∧ Order.info o = d
    ∧ finish (getOrder {| caller_id := userId; caller_role := role |} orderId) out.2
      = ({| code := 200; message := ""; body := OrderBody orderId o |}, out.2).
Proof.
  intros [u Hu]. cbv zeta. rewrite create_run. cbv zeta. simpl.
  eexists _, _. split; [reflexivity|]. split; [reflexivity|].
  rewrite getOrder_run. simpl. rewrite lookup_insert_eq. simpl. rewrite Hu.
  unfold canView. simpl. rewrite bool_decide_eq_true_2 by reflexivity. reflexivity.
Qed.

(** Business 9 of the depot creates a parcel order and reads it back. *)
Lemma create_then_get_witness :
  ∃ orderId o,
    body (finish (create wall 9%N parcel) depot).1 = OrderBody orderId o
    ∧ Order.info o = parcel
    ∧ finish (getOrder {| caller_id := 9%N; caller_role := "business" |} orderId)
        (finish (create wall 9%N parcel) depot).2
      = ({| code := 200; message := ""; body := OrderBody orderId o |},
         (finish (create wall 9%N parcel) depot).2).
Proof.
  apply (create_then_get wall depot 9%N "business" parcel).
  vm_compute. eauto.
Defined.

(** ** Counts that follow the toggles *)

Section CountingMaps.

Context {V : Type} (P : V → Prop) `{∀ v, Decision (P v)}.

Lemma count_map_insert_fresh (m : gmap ObjectId V) k v :
  m !! k = None →
  length (filter (λ p, P p.2) (map_to_list (<[k := v]> m)))
  = (if decide (P v) then 1 else 0) + length (filter (λ p, P p.2) (map_to_list m)).
Proof.
  intros Hk.
  rewrite (Permutation_length
             (filter_Permutation _ _ _ (map_to_list_insert m k v Hk))).
  rewrite filter_cons. simpl. destruct (decide (P v)); reflexivity.
Qed.

Lemma count_map_insert_existing (m : gmap ObjectId V) k old v :
  m !! k = Some old →
  length (filter (λ p, P p.2) (map_to_list (<[k := v]> m)))
    + (if decide (P old) then 1 else 0)
  = length (filter (λ p, P p.2) (map_to_list m)) + (if decide (P v) then 1 else 0).
Proof.
  intros Hk.
  rewrite <- (insert_delete_eq m k v).
  rewrite <- (insert_delete_id m k old Hk) at 2.
  rewrite !count_map_insert_fresh by apply lookup_delete_eq. lia.
Qed.

End CountingMaps.

(** X23.  The admin's count of riders online follows the toggle: a
    successful toggle-online raises the count by one when the rider was
    offline and lowers it by one when the rider was online. *)
Theorem toggleOnline_moves_activeRiders (userId : ObjectId) (w : World)
    (l : RiderLocation.t) :
  locations w !! userId = Some l →
  users_activeRiders (adminStats (toggleOnline userId w).2)
    + (if RiderLocation.isOnline l then 1 else 0)
  = users_activeRiders (adminStats w)
    + (if RiderLocation.isOnline l then 0 else 1).
Proof.
  intros Hl. rewrite (toggleOnline_found userId w l Hl). simpl.
  pose proof (count_map_insert_existing (λ x, RiderLocation.isOnline x = true)
                (locations w) userId l (flip_isOnline l) Hl) as Hc.
  simpl in Hc. destruct (RiderLocation.isOnline l); simpl in Hc; exact Hc.
Qed.

(** Rider 1 of the depot, offline, goes online. *)
Lemma toggleOnline_moves_activeRiders_witness :
  users_activeRiders (adminStats depot) = 0
  ∧ users_activeRiders (adminStats (toggleOnline 1%N depot).2) = 1.
Proof.
  assert (H0 : users_activeRiders (adminStats depot) = 0) by (vm_compute; reflexivity).
  split; [exact H0|].
  destruct (locations depot !! 1%N) as [l|] eqn:Hl; [|vm_compute in Hl; discriminate].
  assert (Hoff : RiderLocation.isOnline l = false)
    by (vm_compute in Hl; injection Hl as <-; reflexivity).
  pose proof (toggleOnline_moves_activeRiders 1%N depot l Hl) as Hmove.
  rewrite Hoff, H0 in Hmove. lia.
Defined.

(** X24.  Blocking or unblocking a user changes no count of the admin
    dashboard: users are counted by role and riders online by their location
    record, so a blocked rider is still counted as a rider, and as online if
    their record says so. *)
Theorem toggleStatus_keeps_adminStats (userId : ObjectId) (w : World) :
  adminStats (toggleStatus userId w).2 = adminStats w.
Proof.
  destruct (users w !! userId) as [u|] eqn:Hu.
  - rewrite (toggleStatus_found userId w u Hu). simpl.
    assert (Hrole : ∀ (P : string → Prop) `{∀ s, Decision (P s)},
              count_users (λ x, P (User.role x))
                (set_users (insert userId (flip_isActive u)) w)
              = count_users (λ x, P (User.role x)) w).
    { intros P HP. unfold count_users. simpl.
      pose proof (count_map_insert_existing (λ x, P (User.role x))
                    (users w) userId u (flip_isActive u) Hu) as Hc.
      simpl in Hc. destruct (decide (P (User.role u))); lia. }
    unfold adminStats. f_equal.
    + exact (Hrole (λ _, True) (λ _, True_dec)).
    + exact (Hrole (λ s, s = "business") _).
    + exact (Hrole (λ s, s = "rider") _).
  - rewrite (toggleStatus_missing userId w Hu). reflexivity.
Qed.
